(** * ContinualModel: the lifecycle controller of the continual-learning framework

    A shallow embedding of [models/utils/continual_model.py].  The class
    [ContinualModel] is modelled as a record of its attributes together with
    a state-and-exception monad in which its methods run.  The collaborators
    that live outside the file (the dataset registry, the optimizer library,
    the kornia conversion, the device lookup, [persistent_locals]) are
    variables of the section. *)

From Stdlib Require Import Floats Ascii String.
From stdpp Require Import gmap strings list fin_maps pretty.
From stdpp Require Import sorting.

Set Warnings "-register-all".
Local Open Scope Z_scope.

(** ** Python values *)

(** A Python number, or one element of a tensor: [NInt] is a Python [int]
    or an element of a signed integer dtype, [NFloat] an IEEE float, and
    [NUnsigned bits z] an element of an unsigned integer dtype of [bits]
    bits ([uint8] has 8), which holds [z] modulo [2 ^ bits]. *)
Inductive number : Type :=
  | NInt (z : Z)
  | NFloat (f : float)
  | NUnsigned (bits : Z) (z : Z).

(** A tensor seen along its leading dimension: a zero-dimensional tensor
    holds one number, any other tensor is the list of its rows, so that
    [shape[0]] is the length of that list. *)
Inductive tensor : Type :=
  | Item (x : number)
  | Rows (rs : list tensor).

(** A boolean tensor, the result of an element-wise comparison. *)
Inductive mask : Type :=
  | MItem (b : bool)
  | MRows (ms : list mask).

(** The values that travel through [meta_observe]: its positional and
    keyword arguments, the value [observe] returns and its local variables. *)
Inductive pyval : Type :=
  | VNone
  | VInt (z : Z)
  | VFloat (f : float)
  | VStr (s : string)
  | VTensor (t : tensor).

(** Python's exceptions, as far as this file raises or can meet them.
    [OtherError] is any further subclass of [BaseException] raised by a
    collaborator. *)
Inductive exn : Type :=
  | NotImplementedError (msg : string)
  | ValueError (msg : string)
  | AssertionError (msg : string)
  | IndexError
  | AttributeError
  | TypeError
  | OtherError (cls : string).

(** The outcome of a computation that may raise. *)
Inductive result (A : Type) : Type :=
  | Ok (a : A)
  | Raise (e : exn).
Arguments Ok {A} a.
Arguments Raise {A} e.

Global Instance result_ret : MRet result := λ A a, Ok a.
Global Instance result_bind : MBind result := λ A B f r,
  match r with Ok a => f a | Raise e => Raise e end.

Definition is_Ok {A} (r : result A) : Prop := ∃ a, r = Ok a.

(** ** Python sequences *)

(** [l[i]]: negative indices count from the end, anything outside
    [-len, len) raises [IndexError]. *)
Definition py_getitem {A} (l : list A) (i : Z) : result A :=
  let n := Z.of_nat (length l) in
  let j := if i <? 0 then i + n else i in
  if (0 <=? j) && (j <? n)
  then match l !! Z.to_nat j with Some x => Ok x | None => Raise IndexError end
  else Raise IndexError.

(** [l[:k]]: the bound is clamped to [0, len] after a negative one has been
    shifted by [len]; a slice never raises. *)
Definition py_slice_to {A} (l : list A) (k : Z) : list A :=
  let n := Z.of_nat (length l) in
  let j := if k <? 0 then Z.max 0 (k + n) else Z.min k n in
  take (Z.to_nat j) l.

(** [sum(l)]: additions from the left, starting at 0. *)
Definition py_sum (l : list Z) : Z := foldl Z.add 0 l.

(** [c.lower()] and [s.lower()] on ASCII text: the letters [A] to [Z]
    are shifted, every other character is kept. *)
Definition lower_ascii (c : ascii) : ascii :=
  let n := nat_of_ascii c in
  if ((65 <=? n) && (n <=? 90))%nat then ascii_of_nat (n + 32) else c.

Fixpoint lower (s : string) : string :=
  match s with
  | EmptyString => EmptyString
  | String c s' => String (lower_ascii c) (lower s')
  end.

(** [k.startswith(p)] *)
Definition startswith (k p : string) : bool := String.prefix p k.

(** ** Tensors *)

(** [t.shape[0]]: the shape of a zero-dimensional tensor is empty. *)
Definition shape0 (t : tensor) : result Z :=
  match t with
  | Item _ => Raise IndexError
  | Rows rs => Ok (Z.of_nat (length rs))
  end.

(** [x != -1] on one number.  The comparison is made in the dtype of the
    tensor: in a signed or a floating dtype -1 is itself, in an unsigned
    dtype it wraps around to the largest value ([255] in [uint8]). *)
Definition number_ne_m1 (x : number) : bool :=
  match x with
  | NInt z => negb (z =? -1)
  | NFloat f => negb (PrimFloat.eqb f (-1)%float)
  | NUnsigned bits z => negb (z `mod` 2 ^ bits =? (-1) `mod` 2 ^ bits)
  end.

(** [t != -1], element by element. *)
Fixpoint tensor_ne_m1 (t : tensor) : mask :=
  match t with
  | Item x => MItem (number_ne_m1 x)
  | Rows rs => MRows (map tensor_ne_m1 rs)
  end.

(** [v != -1] for any value: a tensor compares element-wise, everything
    else gives one Python [bool], which indexes like a zero-dimensional
    mask. *)
Definition ne_m1 (v : pyval) : mask :=
  match v with
  | VTensor t => tensor_ne_m1 t
  | VInt z => MItem (negb (z =? -1))
  | VFloat f => MItem (negb (PrimFloat.eqb f (-1)%float))
  | VNone | VStr _ => MItem true
  end.

(** The sub-tensors of [t] selected by the mask [m], in order.  The mask
    must have the shape of the leading dimensions of [t]. *)
Fixpoint select (m : mask) (t : tensor) {struct m} : result (list tensor) :=
  match m with
  | MItem b => Ok (if b then [t] else [])
  | MRows ms =>
      match t with
      | Item _ => Raise IndexError
      | Rows rs =>
          (fix go (ms : list mask) (rs : list tensor) {struct ms}
             : result (list tensor) :=
             match ms, rs with
             | [], [] => Ok []
             | m' :: ms', r :: rs' =>
                 match select m' r with
                 | Ok xs =>
                     match go ms' rs' with
                     | Ok ys => Ok (xs ++ ys)
                     | Raise e => Raise e
                     end
                 | Raise e => Raise e
                 end
             | _, _ => Raise IndexError
             end) ms rs
      end
  end.

(** [t[m]] for a boolean mask [m]. *)
Definition index_mask (t : tensor) (m : mask) : result tensor :=
  rs ← select m t; Ok (Rows rs).

(** [t.item()] on a zero-dimensional tensor: the Python number it holds. *)
Definition item (x : number) : pyval :=
  match x with
  | NInt z => VInt z
  | NFloat f => VFloat f
  | NUnsigned bits z => VInt (z `mod` 2 ^ bits)
  end.

(** [v.item() if isinstance(v, torch.Tensor) and v.dim() == 0 else v] *)
Definition item_if_scalar (v : pyval) : pyval :=
  match v with
  | VTensor (Item x) => item x
  | _ => v
  end.

(** ** Collaborators' data *)

(** [dataset.N_CLASSES_PER_TASK]: one [int] for all tasks, or a sequence
    with one entry per task. *)
Inductive classes_per_task : Type :=
  | CptInt (c : Z)
  | CptSeq (l : list Z).

(** A transform pipeline: a stage, or a composition that exposes its stages
    as [.transforms]. *)
Inductive Transform : Type :=
  | Stage (name : string)
  | Compose (transforms : list Transform).

(** What [to_kornia_transform] is called on: the list of stages of the last
    composition, or the dataset's normalization transform. *)
Inductive kornia_src : Type :=
  | OfStages (l : list Transform)
  | OfTransform (t : Transform).

(** The fields of [args] that the controller reads. *)
Record Namespace : Type := {
  optimizer : string;
  lr : float;
  optim_wd : float;
  optim_mom : float;
  buffer_size : Z;
  nowand : bool;
  debug_mode : bool;
  label_perc : float;
}.

Module Dataset.
Record t : Type := {
  N_CLASSES : Z;
  N_TASKS : Z;
  SETTING : string;
  N_CLASSES_PER_TASK : classes_per_task;
  get_normalization_transform : result Transform;
}.
End Dataset.

(** A replay buffer, with the tensor of its stored examples. *)
Record Buffer : Type := { examples : tensor }.

(** What the controller does to the outside world, in order: a line
    printed, a call of the strategy's [observe], a call of [wandb.log].
    Printing and [wandb.log] are taken to return. *)
Inductive event : Type :=
  | Print (line : string)
  | ObserveCall (args : list pyval) (kwargs : gmap string pyval)
  | WandbLog (d : gmap string pyval).

(** The mappings handed to [wandb.log], oldest first. *)
Fixpoint log_calls (tr : list event) : list (gmap string pyval) :=
  match tr with
  | [] => []
  | WandbLog d :: tr' => d :: log_calls tr'
  | _ :: tr' => log_calls tr'
  end.

(** The argument lists [observe] was called with, oldest first. *)
Fixpoint observe_calls (tr : list event)
  : list (list pyval * gmap string pyval) :=
  match tr with
  | [] => []
  | ObserveCall a k :: tr' => (a, k) :: observe_calls tr'
  | _ :: tr' => observe_calls tr'
  end.

(** The exception of a name that is not bound. *)
Definition NameError : exn := OtherError "NameError".

(** The local variables of a call, by name. *)
Abbreviation locals := (gmap string pyval).

(** An attribute that an object has only once it has been assigned:
    [Unassigned] is the missing attribute, [Assigned v] the attribute with
    the value [v], which may be Python's [None]. *)
Inductive attr (A : Type) : Type :=
  | Unassigned
  | Assigned (v : A).
Arguments Unassigned {A}.
Arguments Assigned {A} v.

(** The collaborators outside this file: the modules and handles that the
    controller only stores and passes on, the state a concrete strategy
    keeps for itself, and the functions of other modules that it calls. *)
Class Collaborators : Type := {
  Backbone : Type;
  Loss : Type;
  Params : Type;
  Kornia : Type;
  Optimizer : Type;
  Device : Type;
  StrategyState : Type;
  get_dataset : Namespace → result Dataset.t;
  to_kornia_transform : kornia_src → result Kornia;
  get_device : result Device;
  (** [net.parameters()] *)
  parameters : Backbone → Params;
  (** [dir(optim)] *)
  optim_dir : list string;
  (** [getattr(optim, name)(params, lr=, weight_decay=, momentum=)] *)
  optim_call : string → Params → float → float → float → result Optimizer;
  (** ['wandb' in sys.modules] *)
  wandb_imported : bool;
}.

Section ContinualModel.

Context {collab : Collaborators}.

(** The attributes of a [ContinualModel] instance.  The two kornia
    transforms and the optimizer, to which the constructor may assign
    [None], tell the attribute that is missing from the one that is
    [None]; the other optional attributes are never assigned [None], and
    for them [None] is the attribute that has not been assigned yet. *)
Record Self : Type := mkSelf {
  net : option Backbone;
  loss : Loss;
  args : Namespace;
  transform : Transform;
  dataset : Dataset.t;
  N_CLASSES : Z;
  N_TASKS : Z;
  SETTING : string;
  cpt : classes_per_task;
  current_task : Z;
  weak_transform : attr (option Kornia);
  normalization_transform : attr (option Kornia);
  opt : attr (option Optimizer);
  device : option Device;
  buffer : option Buffer;
  n_classes_current_task : option Z;
  n_seen_classes : option Z;
  n_remaining_classes : option Z;
  n_past_classes : option Z;
}.

(** A method that a strategy overrides: it reads the controller and
    updates the strategy's own state. *)
Definition hook (A : Type) : Type :=
  Self → StrategyState → result A * StrategyState.

(** The class-level part of a concrete strategy: its two declared
    attributes and the methods it may override.  [observe] gives the
    value it returns together with its local variables at that moment. *)
Record Strategy : Type := {
  NAME : string;
  COMPATIBILITY : list string;
  begin_task : Dataset.t → hook unit;
  end_task : Dataset.t → hook unit;
  observe : list pyval → gmap string pyval → hook (pyval * locals);
}.

(** ** The monad of the methods *)

Record World : Type := mkWorld {
  self : Self;
  strat : StrategyState;
  trace : list event;
}.

Definition M (A : Type) : Type := World → result A * World.

#[global] Instance M_ret : MRet M := λ A a w, (Ok a, w).
#[global] Instance M_bind : MBind M := λ A B f c w,
  match c w with
  | (Ok a, w') => f a w'
  | (Raise e, w') => (Raise e, w')
  end.

Definition raise {A} (e : exn) : M A := λ w, (Raise e, w).
Definition lift {A} (r : result A) : M A := λ w, (r, w).
Definition get_self : M Self := λ w, (Ok (self w), w).
Definition modify_self (f : Self → Self) : M unit :=
  λ w, (Ok tt, mkWorld (f (self w)) (strat w) (trace w)).
Definition emit (e : event) : M unit :=
  λ w, (Ok tt, mkWorld (self w) (strat w) (trace w ++ [e])).
Definition print (line : string) : M unit := emit (Print line).
Definition call_hook {A} (h : hook A) : M A :=
  λ w, let '(r, st) := h (self w) (strat w) in
       (r, mkWorld (self w) st (trace w)).

(** [try: body except BaseException: handler] *)
Definition try_except {A} (body : M A) (handler : M A) : M A :=
  λ w, match body w with
       | (Ok a, w') => (Ok a, w')
       | (Raise _, w') => handler w'
       end.

(** Attribute assignments. *)
Definition set_current_task (v : Z) (s : Self) : Self :=
  let 'mkSelf a b c d e f g h i _ k l m n o p q r t := s in
  mkSelf a b c d e f g h i v k l m n o p q r t.
Definition set_weak_transform (v : option Kornia) (s : Self) : Self :=
  let 'mkSelf a b c d e f g h i j _ l m n o p q r t := s in
  mkSelf a b c d e f g h i j (Assigned v) l m n o p q r t.
Definition set_normalization_transform (v : option Kornia) (s : Self) : Self :=
  let 'mkSelf a b c d e f g h i j k _ m n o p q r t := s in
  mkSelf a b c d e f g h i j k (Assigned v) m n o p q r t.
Definition set_opt (v : option Optimizer) (s : Self) : Self :=
  let 'mkSelf a b c d e f g h i j k l _ n o p q r t := s in
  mkSelf a b c d e f g h i j k l (Assigned v) n o p q r t.
Definition set_device (v : option Device) (s : Self) : Self :=
  let 'mkSelf a b c d e f g h i j k l m _ o p q r t := s in
  mkSelf a b c d e f g h i j k l m v o p q r t.
Definition set_buffer (v : option Buffer) (s : Self) : Self :=
  let 'mkSelf a b c d e f g h i j k l m n _ p q r t := s in
  mkSelf a b c d e f g h i j k l m n v p q r t.
Definition set_n_classes_current_task (v : option Z) (s : Self) : Self :=
  let 'mkSelf a b c d e f g h i j k l m n o _ q r t := s in
  mkSelf a b c d e f g h i j k l m n o v q r t.
Definition set_n_seen_classes (v : option Z) (s : Self) : Self :=
  let 'mkSelf a b c d e f g h i j k l m n o p _ r t := s in
  mkSelf a b c d e f g h i j k l m n o p v r t.
Definition set_n_remaining_classes (v : option Z) (s : Self) : Self :=
  let 'mkSelf a b c d e f g h i j k l m n o p q _ t := s in
  mkSelf a b c d e f g h i j k l m n o p q v t.
Definition set_n_past_classes (v : option Z) (s : Self) : Self :=
  let 'mkSelf a b c d e f g h i j k l m n o p q r _ := s in
  mkSelf a b c d e f g h i j k l m n o p q r v.

(** Reading an attribute that may not have been assigned. *)
Definition getattr {A} (field : Self → option A) : M A :=
  s ← get_self;
  match field s with Some v => mret v | None => raise AttributeError end.

(** ** The methods a strategy inherits when it does not override them *)

(** [begin_task] and [end_task] of the base class: [pass]. *)
Definition ContinualModel_begin_task (ds : Dataset.t) : hook unit :=
  λ _ st, (Ok tt, st).
Definition ContinualModel_end_task (ds : Dataset.t) : hook unit :=
  λ _ st, (Ok tt, st).

(** The body of the base class's [observe]: [raise NotImplementedError]. *)
Definition observe_body (inputs labels not_aug_inputs epoch : pyval)
  : hook (pyval * locals) :=
  λ _ st, (Raise (NotImplementedError ""), st).

(** One parameter of a call: taken by position, else by keyword, else from
    its default; given twice or not at all it is a [TypeError]. *)
Definition bind_param (posargs : list pyval) (kwargs : gmap string pyval)
    (i : nat) (name : string) (dflt : option pyval) : result pyval :=
  match posargs !! i, kwargs !! name with
  | Some _, Some _ => Raise TypeError
  | Some v, None => Ok v
  | None, Some v => Ok v
  | None, None =>
      match dflt with Some d => Ok d | None => Raise TypeError end
  end.

(** The base class's [observe(inputs, labels, not_aug_inputs, epoch=None)]
    called on positional and keyword arguments: the arguments are bound to
    the four parameters, then the body runs. *)
Definition ContinualModel_observe (posargs : list pyval)
    (kwargs : gmap string pyval) : hook (pyval * locals) :=
  λ s st,
    let bound :=
      if (4 <? length posargs)%nat then Raise TypeError
      else if bool_decide
                (dom kwargs ⊆ ({[ "inputs"; "labels"; "not_aug_inputs"; "epoch" ]}
                                 : gset string))
      then
        inputs ← bind_param posargs kwargs 0 "inputs" None;
        labels ← bind_param posargs kwargs 1 "labels" None;
        not_aug_inputs ← bind_param posargs kwargs 2 "not_aug_inputs" None;
        epoch ← bind_param posargs kwargs 3 "epoch" (Some VNone);
        Ok (inputs, labels, not_aug_inputs, epoch)
      else Raise TypeError in
    match bound with
    | Ok (inputs, labels, not_aug_inputs, epoch) =>
        observe_body inputs labels not_aug_inputs epoch s st
    | Raise e => (Raise e, st)
    end.

(** A strategy that declares its two attributes and overrides nothing. *)
Definition inherit_all (name : string) (compat : list string) : Strategy :=
  {| NAME := name; COMPATIBILITY := compat;
     begin_task := ContinualModel_begin_task;
     end_task := ContinualModel_end_task;
     observe := ContinualModel_observe |}.

(** ** The methods, for one concrete strategy *)

Variable strategy : Strategy.

(** ['cssl' in self.COMPATIBILITY] *)
Definition supports_cssl : bool :=
  bool_decide ("cssl" ∈ COMPATIBILITY strategy).

(** Lines 36-45 of [__init__]: the attributes copied from the arguments
    and from the dataset, and the task counter. *)
Definition init_fields (backbone : option Backbone) (loss0 : Loss)
    (args0 : Namespace) (transform0 : Transform) (ds : Dataset.t) : Self :=
  {| net := backbone; loss := loss0; args := args0; transform := transform0;
     dataset := ds;
     N_CLASSES := Dataset.N_CLASSES ds;
     N_TASKS := Dataset.N_TASKS ds;
     SETTING := Dataset.SETTING ds;
     cpt := Dataset.N_CLASSES_PER_TASK ds;
     current_task := 0;
     weak_transform := Unassigned; normalization_transform := Unassigned;
     opt := Unassigned; device := None; buffer := None;
     n_classes_current_task := None; n_seen_classes := None;
     n_remaining_classes := None; n_past_classes := None |}.

(** [transform.transforms[-1].transforms] *)
Definition last_stage_transforms (t : Transform) : result (list Transform) :=
  match t with
  | Stage _ => Raise AttributeError
  | Compose ts =>
      final ← py_getitem ts (-1);
      match final with
      | Stage _ => Raise AttributeError
      | Compose ts' => Ok ts'
      end
  end.

(** The body of the [try] of lines 47-49. *)
Definition derive_kornia : M unit :=
  s ← get_self;
  stages ← lift (last_stage_transforms (transform s));
  wt ← lift (to_kornia_transform (OfStages stages));
  modify_self (set_weak_transform (Some wt));;
  nt ← lift (Dataset.get_normalization_transform (dataset s));
  nk ← lift (to_kornia_transform (OfTransform nt));
  modify_self (set_normalization_transform (Some nk)).

Definition kornia_warning : string :=
  "Warning: could not initialize kornia transforms.".

(** Lines 47-53. *)
Definition init_kornia : M unit :=
  try_except derive_kornia
    (print kornia_warning;;
     modify_self (set_weak_transform None);;
     modify_self (set_normalization_transform None)).

(** [{optim_name.lower(): optim_name for optim_name in dir(optim)}]: a
    later name replaces an earlier one with the same lower-case form. *)
Definition supported_optims : gmap string string :=
  foldl (λ m optim_name, <[lower optim_name := optim_name]> m) ∅ optim_dir.

Definition get_optimizer : M Optimizer :=
  s ← get_self;
  match supported_optims !! lower (optimizer (args s)) with
  | Some optim_name =>
      b ← match net s with
           | Some b => mret b
           | None => raise AttributeError
           end;
      lift (optim_call optim_name (parameters b) (lr (args s))
              (optim_wd (args s)) (optim_mom (args s)))
  | None => raise (ValueError ("Unknown optimizer: " +:+ optimizer (args s)))
  end.

Definition no_backbone_warning : string :=
  "Warning: no default model for this dataset. You will have to specify the optimizer yourself.".

(** Lines 55-59. *)
Definition init_optimizer : M unit :=
  s ← get_self;
  match net s with
  | Some _ => o ← get_optimizer; modify_self (set_opt (Some o))
  | None => print no_backbone_warning;; modify_self (set_opt None)
  end.

(** Line 60. *)
Definition init_device : M unit :=
  d ← lift get_device; modify_self (set_device (Some d)).

Definition missing_descriptor : string :=
  "Please specify the name and the compatibility of the model.".
Definition label_perc_warning : string :=
  "WARNING: label_perc is not explicitly supported by this model -> training may break".

(** [not x] for a string and for a list: true when empty. *)
Definition str_falsy (x : string) : bool := bool_decide (x = "").
Definition list_falsy {A} (x : list A) : bool :=
  match x with [] => true | _ => false end.

(** Lines 62-66. *)
Definition init_checks : M unit :=
  s ← get_self;
  if str_falsy (NAME strategy) || list_falsy (COMPATIBILITY strategy)
  then raise (NotImplementedError missing_descriptor)
  else if negb (PrimFloat.eqb (label_perc (args s)) 1) && negb supports_cssl
       then print label_perc_warning
       else mret tt.

(** Lines 47-60, the steps between the first assignments and the check of
    the strategy's descriptor. *)
Definition init_before_checks : M unit :=
  init_kornia;; init_optimizer;; init_device.

(** Lines 55-66, the steps after the kornia transforms. *)
Definition init_after_kornia : M unit :=
  init_optimizer;; init_device;; init_checks.

(** The constructor.  It gives the controller and the strategy state as
    a [World], or the exception that ended construction, and in both
    cases the lines printed so far. *)
Definition __init__ (backbone : option Backbone) (loss0 : Loss)
    (args0 : Namespace) (transform0 : Transform)
    (st : StrategyState) (tr : list event) : result World * list event :=
  match get_dataset args0 with
  | Raise e => (Raise e, tr)
  | Ok ds =>
      let w0 := mkWorld (init_fields backbone loss0 args0 transform0 ds) st tr in
      match (init_kornia;; init_optimizer;; init_device;; init_checks) w0 with
      | (Ok _, w) => (Ok w, trace w)
      | (Raise e, w) => (Raise e, trace w)
      end
  end.

Definition load_buffer (b : Buffer) : M unit :=
  s ← get_self;
  n ← lift (shape0 (examples b));
  if n =? buffer_size (args s)
  then modify_self (set_buffer (Some b))
  else raise (AssertionError
                ("Buffer size mismatch. Expected " +:+ pretty (buffer_size (args s))
                 +:+ " got " +:+ pretty n)).

(** [arg[labeled_mask] if isinstance(arg, torch.Tensor) and
     arg.shape[0] == args[0].shape[0] else arg] *)
Definition drop_in (args : list pyval) (labeled_mask : mask) (arg : pyval)
  : result pyval :=
  match arg with
  | VTensor t =>
      n ← shape0 t;
      first ← py_getitem args 0;
      n0 ← match first with
            | VTensor t0 => shape0 t0
            | _ => Raise AttributeError
            end;
      if n =? n0 then t' ← index_mask t labeled_mask; Ok (VTensor t')
      else Ok arg
  | _ => Ok arg
  end.

(** Lines 117-118. *)
Definition drop_unlabeled (args : list pyval) : result (list pyval) :=
  labels ← py_getitem args 1;
  mapM (drop_in args (ne_m1 labels)) args.

(** The call of [self.observe] on the positional and keyword arguments. *)
Definition call_observe (args : list pyval) (kwargs : gmap string pyval)
  : M (pyval * locals) :=
  emit (ObserveCall args kwargs);;
  call_hook (observe strategy args kwargs).

(** Is the name of a local variable one that is logged? *)
Definition logged_name (k : string) : bool :=
  startswith k "_wandb_" || startswith k "loss".

(** The name [wandb] is bound in the module only when the import of
    lines 21-22 has succeeded; without it the call of [wandb.log] raises
    a [NameError], after the mapping has been built. *)
Definition autolog_wandb (ls : locals) (extra : option (gmap string pyval))
  : M unit :=
  s ← get_self;
  if negb (nowand (args s)) && negb (debug_mode (args s))
  then
    let tmp := item_if_scalar <$>
                 filter (λ kv : string * pyval, logged_name kv.1) ls in
    let tmp := default ∅ extra ∪ tmp in
    if wandb_imported then emit (WandbLog tmp) else raise NameError
  else mret tt.

(** The positional arguments are called [posargs] here, [args] being
    the attribute [self.args]. *)
Definition meta_observe (posargs : list pyval) (kwargs : gmap string pyval)
  : M pyval :=
  posargs ← (if negb supports_cssl then lift (drop_unlabeled posargs)
             else mret posargs);
  s ← get_self;
  if wandb_imported && negb (nowand (args s))
  then
    out ← call_observe posargs kwargs;
    autolog_wandb out.2 None;;
    mret out.1
  else
    out ← call_observe posargs kwargs;
    mret out.1.

Definition meta_begin_task (ds : Dataset.t) : M unit :=
  s ← get_self;
  n ← match cpt s with
       | CptInt c => mret c
       | CptSeq l => lift (py_getitem l (current_task s))
       end;
  modify_self (set_n_classes_current_task (Some n));;
  s ← get_self;
  seen ← match cpt s with
          | CptInt c => mret (c * (current_task s + 1))
          | CptSeq l => mret (py_sum (py_slice_to l (current_task s + 1)))
          end;
  modify_self (set_n_seen_classes (Some seen));;
  s ← get_self;
  seen ← getattr n_seen_classes;
  modify_self (set_n_remaining_classes (Some (N_CLASSES s - seen)));;
  s ← get_self;
  past ← match cpt s with
          | CptInt c => mret (c * current_task s)
          | CptSeq l => mret (py_sum (py_slice_to l (current_task s)))
          end;
  modify_self (set_n_past_classes (Some past));;
  call_hook (begin_task strategy ds).

Definition meta_end_task (ds : Dataset.t) : M unit :=
  s ← get_self;
  modify_self (set_current_task (current_task s + 1));;
  call_hook (end_task strategy ds).

End ContinualModel.

(** ** Further methods of the controller *)

(** The exception of a division by zero. *)
Definition ZeroDivisionError : exn := OtherError "ZeroDivisionError".

(** [_compute_offsets(task)], lines 86-90: [//] rounds towards minus
    infinity and raises on a zero divisor. *)
Definition _compute_offsets `{Collaborators} (task : Z) : M (Z * Z) :=
  s ← get_self;
  if N_TASKS s =? 0 then raise ZeroDivisionError
  else
    let cpt := N_CLASSES s / N_TASKS s in
    let offset1 := task * cpt in
    let offset2 := (task + 1) * cpt in
    mret (offset1, offset2).

(** One call that a training loop makes on a constructed controller. *)
Inductive call : Type :=
  | CallBeginTask (ds : Dataset.t)
  | CallEndTask (ds : Dataset.t)
  | CallObserve (posargs : list pyval) (kwargs : gmap string pyval)
  | CallLoadBuffer (b : Buffer)
  | CallGetOptimizer
  | CallComputeOffsets (task : Z).

Definition run_call `{Collaborators} (strategy : Strategy) (c : call)
  : M unit :=
  match c with
  | CallBeginTask ds => meta_begin_task strategy ds
  | CallEndTask ds => meta_end_task strategy ds
  | CallObserve posargs kwargs => meta_observe strategy posargs kwargs;; mret tt
  | CallLoadBuffer b => load_buffer b
  | CallGetOptimizer => get_optimizer;; mret tt
  | CallComputeOffsets task => _compute_offsets task;; mret tt
  end.

(** The calls of a loop in order, from the state that the one before has
    left, whether it returned or raised. *)
Fixpoint run_calls `{Collaborators} (strategy : Strategy) (cs : list call)
    (w : World) : World :=
  match cs with
  | [] => w
  | c :: cs' => run_calls strategy cs' (run_call strategy c w).2
  end.

(** The number of [meta_end_task] calls among [cs]. *)
Fixpoint ended_tasks (cs : list call) : Z :=
  match cs with
  | [] => 0
  | CallEndTask _ :: cs' => 1 + ended_tasks cs'
  | _ :: cs' => ended_tasks cs'
  end.

(** The attributes that describe the run: none of the calls of a training
    loop assigns them. *)
Definition same_run `{Collaborators} (s s' : Self) : Prop :=
  cpt s' = cpt s ∧ N_CLASSES s' = N_CLASSES s ∧ N_TASKS s' = N_TASKS s ∧
  args s' = args s ∧ net s' = net s.

(** ** The template filters of [docs/conf.py] *)

(** [s.split(sep)] for a separator of one character: the pieces between
    the separators, at least one. *)
Fixpoint split_on (sep : ascii) (s : string) : list string :=
  match s with
  | EmptyString => [EmptyString]
  | String c s' =>
      if Ascii.eqb c sep then EmptyString :: split_on sep s'
      else match split_on sep s' with
           | piece :: pieces => String c piece :: pieces
           | [] => [String c EmptyString]
           end
  end.

(** [s.replace(a, b)] for single characters. *)
Fixpoint replace_char (a b : ascii) (s : string) : string :=
  match s with
  | EmptyString => EmptyString
  | String c s' =>
      String (if Ascii.eqb c a then b else c) (replace_char a b s')
  end.

(** [s.upper()] and [s.capitalize()] on ASCII text. *)
Definition upper_ascii (c : ascii) : ascii :=
  let n := nat_of_ascii c in
  if ((97 <=? n) && (n <=? 122))%nat then ascii_of_nat (n - 32) else c.

Fixpoint upper (s : string) : string :=
  match s with
  | EmptyString => EmptyString
  | String c s' => String (upper_ascii c) (upper s')
  end.

Definition capitalize (s : string) : string :=
  match s with
  | EmptyString => EmptyString
  | String c s' => String (upper_ascii c) (lower s')
  end.

(** [x.split('.')[-1]]: the index -1 exists, a split being never empty. *)
Definition last_component (x : string) : string :=
  List.last (split_on "." x) EmptyString.

(** [os.path.join(a, b)] on POSIX paths. *)
Definition path_join (a b : string) : string :=
  if String.prefix "/" b then b
  else if bool_decide (a = EmptyString) || String.prefix "/" (String.rev a)
       then a +:+ b
       else a +:+ "/" +:+ b.

(** [sorted(l, key=key)]: a stable sort, by insertion from the right of
    each element before the first one whose key is not smaller. *)
Fixpoint insert_by {A} (key : A → string) (x : A) (l : list A) : list A :=
  match l with
  | [] => [x]
  | y :: l' =>
      if String.leb (key x) (key y) then x :: y :: l'
      else y :: insert_by key x l'
  end.

Definition sorted_by {A} (key : A → string) (l : list A) : list A :=
  foldr (insert_by key) [] l.

(** The order of the keys, by which a sorted list is sorted. *)
Definition key_le {A} (key : A → string) (x y : A) : Prop :=
  String.leb (key x) (key y) = true.

(** [get_item_name], the lambda of line 182. *)
Definition get_item_name (x : string) : string := lower (last_component x).

(** [drop_torch_items] and [has_items], lines 113-127, on the keys
    [fn_to_keep] of the dictionary of the imported object; the items that
    the generator yields are given as a list. *)
Definition drop_torch_items (fn_to_keep items : list string) : list string :=
  filter (λ item, item ∈ fn_to_keep ∧ item ≠ "__init__") items.

Definition has_items (fn_to_keep items : list string) : bool :=
  let its := filter (λ item, item ∈ fn_to_keep ∧ item ≠ "__init__") items in
  (0 <? length its)%nat.

Section DocsConf.

(** [os.path.isdir] and the root of the repository. *)
Variable isdir : string → bool.
Variable mammoth_path : string.

(** [_is_dir(module)], lines 159-160. *)
Definition _is_dir (module : string) : bool :=
  isdir (path_join mammoth_path (replace_char "." "/" module)).

(** [reorder_modules(modules)], lines 146-156. *)
Definition reorder_modules (modules : list string) : list string :=
  let mods := filter (λ module, _is_dir module = true) modules in
  let others := filter (λ module, _is_dir module ≠ true) modules in
  sorted_by last_component mods ++ sorted_by last_component others.

(** [parse_toctree_name(item)], lines 163-173. *)
Definition parse_toctree_name (item : string) : string :=
  let name := last_component item in
  if _is_dir item
  then String.concat " " (capitalize <$> split_on "_" name)
  else name.

End DocsConf.

(** ** Reference notions used in the statements *)

(** The sum of the entries of [l] at the indices below [n]; an index past
    the end counts for nothing. *)
Fixpoint prefix_sum (l : list Z) (n : nat) : Z :=
  match n with
  | O => 0
  | S n' => prefix_sum l n' + default 0 (l !! n')
  end.

(** The current task is one of the tasks that [cpt] describes. *)
Definition task_in_range `{Collaborators} (s : Self) : Prop :=
  match cpt s with
  | CptInt _ => True
  | CptSeq l => 0 ≤ current_task s < Z.of_nat (length l)
  end.

(** The list that lines 116-118 leave in [args]. *)
Definition after_drop `{Collaborators} (strategy : Strategy)
    (posargs : list pyval) : result (list pyval) :=
  if negb (supports_cssl strategy) then drop_unlabeled posargs
  else Ok posargs.

(** The mapping that [autolog_wandb] builds from the local variables when
    it is given no extra entries. *)
Definition logged (ls : gmap string pyval) : gmap string pyval :=
  ∅ ∪ (item_if_scalar <$> filter (λ kv : string * pyval, logged_name kv.1) ls).

(** A one-dimensional tensor of integer labels, of a signed dtype. *)
Definition int_labels (ls : list Z) : tensor :=
  Rows ((λ z, Item (NInt z)) <$> ls).

(** The rows of a batch whose label, at the same position of [ls], is not
    the sentinel -1, in the order of the batch. *)
Definition labeled_rows (ls : list Z) (rs : list tensor) : list tensor :=
  (filter (λ p : Z * tensor, p.1 ≠ -1) (zip ls rs)).*2.

(** The positions of [ls] whose label is not the sentinel, increasing. *)
Definition labeled_positions (ls : list Z) : list nat :=
  filter (λ i, ls !! i ≠ Some (-1)) (seq 0 (length ls)).

(** One argument of a batch labelled by [ls], without the rows of the
    unlabeled examples: a tensor with as many rows as there are labels
    loses them, any other value stays as it is. *)
Definition keep_labeled (ls : list Z) (v : pyval) : pyval :=
  match v with
  | VTensor (Rows rs) =>
      if decide (length rs = length ls)
      then VTensor (Rows (labeled_rows ls rs))
      else v
  | _ => v
  end.

(** The arguments of a call of [observe] are those of [meta_observe]
    with the unlabeled examples removed from every one of them,
    positional or keyword. *)
Definition drops_from_every_argument (ls : list Z) (posargs : list pyval)
    (kwargs : gmap string pyval)
    (call : list pyval * gmap string pyval) : Prop :=
  call = (keep_labeled ls <$> posargs, keep_labeled ls <$> kwargs).

(** ** A small instance, for running the definitions *)

(** A dataset of three tasks with 2, 3 and 5 classes. *)
Definition ds_uneven : Dataset.t :=
  {| Dataset.N_CLASSES := 10; Dataset.N_TASKS := 3;
     Dataset.SETTING := "class-il";
     Dataset.N_CLASSES_PER_TASK := CptSeq [2; 3; 5];
     Dataset.get_normalization_transform := Ok (Stage "Normalize") |}.

(** The same number of classes in five tasks of two. *)
Definition ds_even : Dataset.t :=
  {| Dataset.N_CLASSES := 10; Dataset.N_TASKS := 5;
     Dataset.SETTING := "class-il";
     Dataset.N_CLASSES_PER_TASK := CptInt 2;
     Dataset.get_normalization_transform := Ok (Stage "Normalize") |}.

(** Collaborators that always answer: the dataset is chosen by the buffer
    size of the arguments, the optimizer library knows the one name
    [sgd], and [wandb] has been imported. *)
Definition lab : Collaborators :=
  {| Backbone := unit; Loss := unit; Params := unit;
     Kornia := kornia_src; Optimizer := string; Device := string;
     StrategyState := nat;
     get_dataset := λ a, Ok (if buffer_size a =? 0 then ds_even else ds_uneven);
     to_kornia_transform := λ src, Ok src;
     get_device := Ok "cpu";
     parameters := λ _, tt;
     optim_dir := ["sgd"];
     optim_call := λ name _ _ _ _, Ok name;
     wandb_imported := true |}.

(** Arguments asking for the optimizer [name], a buffer of [size]
    examples, and the two logging switches. *)
Definition lab_args_with (name : string) (size : Z) (no_wandb debug : bool)
  : Namespace :=
  {| optimizer := name; lr := 0.125; optim_wd := 0; optim_mom := 0;
     buffer_size := size; nowand := no_wandb; debug_mode := debug;
     label_perc := 1 |}.

Definition lab_args : Namespace := lab_args_with "SGD" 1000 false false.

Definition lab_pipeline : Transform :=
  Compose [Stage "ToPILImage";
           Compose [Stage "RandomCrop"; Stage "RandomHorizontalFlip";
                    Stage "ToTensor"]].

(** A controller on the uneven dataset, as line 45 leaves it. *)
Definition lab_self_with (a : Namespace) : @Self lab :=
  init_fields (collab := lab) (Some tt) tt a lab_pipeline ds_uneven.

Definition lab_world_with (a : Namespace) : @World lab :=
  mkWorld (lab_self_with a) 0%nat [].

(** The same controller on its second task. *)
Definition lab_world : @World lab :=
  mkWorld (set_current_task 1 (lab_self_with lab_args)) 0%nat [].

(** A replay buffer holding [n] examples. *)
Definition replay (n : nat) : Buffer :=
  {| examples := Rows (replicate n (Rows [Item (NFloat 0); Item (NFloat 1)])) |}.

(** A strategy whose [observe] returns the loss 2.5, held in its local
    variable [loss]; it counts its calls in its own state. *)
Definition lab_observe (posargs : list pyval) (kwargs : gmap string pyval)
  : @hook lab (pyval * locals) :=
  λ _ calls,
    (Ok (VFloat 2.5,
         {[ "loss" := VFloat 2.5;
            "loss_reg" := VTensor (Item (NFloat 0.5));
            "outputs" := default VNone (posargs !! 0%nat) ]}),
     S calls).

Definition lab_strategy (compat : list string) : @Strategy lab :=
  {| NAME := "sgd"; COMPATIBILITY := compat;
     begin_task := ContinualModel_begin_task;
     end_task := ContinualModel_end_task;
     observe := lab_observe |}.

(** A batch of three examples, the second one unlabeled, followed by the
    epoch; and a keyword argument with one row per example. *)
Definition image (x : Z) : tensor := Rows [Item (NInt x); Item (NInt (x + 1))].
Definition lab_inputs : list tensor := [image 10; image 20; image 30].
Definition lab_labels : list Z := [4; -1; 7].
Definition lab_batch : list pyval :=
  [VTensor (Rows lab_inputs); VTensor (int_labels lab_labels);
   VTensor (Rows lab_inputs); VInt 3].
(** The same in [uint8], where the dtype has no -1. *)
Definition uint8_labels (ls : list Z) : tensor :=
  Rows ((λ z, Item (NUnsigned 8 z)) <$> ls).

(** A [uint8] label as the comparison of line 117 reads it: 255, to which
    -1 wraps around in that dtype, counts as the sentinel. *)
Definition uint8_as_label (z : Z) : Z :=
  if z `mod` 256 =? 255 then -1 else z.

Definition lab_logits : gmap string pyval :=
  {[ "logits" := VTensor (Rows [image 1; image 2; image 3]) ]}.

(** An optimizer library that lists, as [torch.optim] does, a class [SGD]
    and a submodule [sgd]: only the classes can be called. *)
Definition lab_torch : Collaborators :=
  {| Backbone := unit; Loss := unit; Params := unit;
     Kornia := kornia_src; Optimizer := string; Device := string;
     StrategyState := nat;
     get_dataset := λ _, Ok ds_uneven;
     to_kornia_transform := λ src, Ok src;
     get_device := Ok "cpu";
     parameters := λ _, tt;
     optim_dir := ["Adam"; "SGD"; "lr_scheduler"; "sgd"];
     optim_call := λ name _ _ _ _,
       if bool_decide (name ∈ ["Adam"; "SGD"]) then Ok name
       else Raise TypeError;
     wandb_imported := false |}.

Definition lab_torch_world (name : string) : @World lab_torch :=
  mkWorld (init_fields (collab := lab_torch) (Some tt) tt
             (lab_args_with name 1000 false false) lab_pipeline ds_uneven)
    0%nat [].

(** An optimizer library whose class [Adam], as that of [torch.optim],
    has no parameter [momentum]: the call of lines 80-81, which always
    passes one, raises [TypeError]. *)
Definition lab_adam : Collaborators :=
  {| Backbone := unit; Loss := unit; Params := unit;
     Kornia := kornia_src; Optimizer := string; Device := string;
     StrategyState := nat;
     get_dataset := λ _, Ok ds_uneven;
     to_kornia_transform := λ src, Ok src;
     get_device := Ok "cpu";
     parameters := λ _, tt;
     optim_dir := ["Adam"; "SGD"];
     optim_call := λ name _ _ _ _,
       if bool_decide (name = "SGD") then Ok name else Raise TypeError;
     wandb_imported := false |}.

Definition lab_adam_world (name : string) : @World lab_adam :=
  mkWorld (init_fields (collab := lab_adam) (Some tt) tt
             (lab_args_with name 1000 false false) lab_pipeline ds_uneven)
    0%nat [].

(** ** Task progress *)

Section TaskProgress.

Context {collab : Collaborators} (strategy : Strategy).

Lemma py_sum_snoc (l : list Z) (x : Z) : py_sum (l ++ [x]) = py_sum l + x.
Proof. unfold py_sum. by rewrite foldl_app. Qed.

Lemma py_sum_take (l : list Z) (n : nat) :
  (n ≤ length l)%nat → py_sum (take n l) = prefix_sum l n.
Proof.
  induction n as [|n IH]; intros Hn; [by rewrite take_0|].
  destruct (lookup_lt_is_Some_2 l n) as [x Hx]; [lia|].
  rewrite (take_S_r l n x Hx), py_sum_snoc, IH by lia.
  simpl. by rewrite Hx.
Qed.

Lemma py_slice_to_prefix (l : list Z) (k : Z) :
  0 ≤ k ≤ Z.of_nat (length l) → py_slice_to l k = take (Z.to_nat k) l.
Proof.
  intros Hk. unfold py_slice_to.
  destruct (Z.ltb_spec k 0); [lia|]. by rewrite Z.min_l by lia.
Qed.

Lemma py_getitem_in_range {A} (l : list A) (i : Z) :
  0 ≤ i < Z.of_nat (length l) →
  ∃ x, l !! Z.to_nat i = Some x ∧ py_getitem l i = Ok x.
Proof.
  intros Hi. unfold py_getitem.
  destruct (Z.ltb_spec i 0); [lia|].
  destruct (Z.leb_spec 0 i); [|lia].
  destruct (Z.ltb_spec i (Z.of_nat (length l))); [|lia]. simpl.
  destruct (lookup_lt_is_Some_2 l (Z.to_nat i)) as [x Hx]; [lia|].
  exists x. by rewrite Hx.
Qed.

Lemma py_getitem_Ok_nonneg {A} (l : list A) (i : Z) (x : A) :
  0 ≤ i → py_getitem l i = Ok x → i < Z.of_nat (length l).
Proof.
  unfold py_getitem. intros Hi.
  destruct (Z.ltb_spec i 0); [lia|].
  destruct (Z.leb_spec 0 i); [|lia].
  by destruct (Z.ltb_spec i (Z.of_nat (length l))).
Qed.

(** What [meta_begin_task] leaves in the four progress attributes once
    line 128 has found the class count of the current task. *)
Lemma meta_begin_task_fields (ds : Dataset.t) (w : World) :
  task_in_range (self w) →
  let s := self w in
  let s' := self (meta_begin_task strategy ds w).2 in
  let t := current_task s in
  match cpt s with
  | CptInt c =>
      n_classes_current_task s' = Some c ∧
      n_seen_classes s' = Some (c * (t + 1)) ∧
      n_remaining_classes s' = Some (N_CLASSES s - c * (t + 1)) ∧
      n_past_classes s' = Some (c * t)
  | CptSeq l =>
      n_classes_current_task s' = Some (default 0 (l !! Z.to_nat t)) ∧
      n_seen_classes s' = Some (prefix_sum l (Z.to_nat t + 1)) ∧
      n_remaining_classes s' =
        Some (N_CLASSES s - prefix_sum l (Z.to_nat t + 1)) ∧
      n_past_classes s' = Some (prefix_sum l (Z.to_nat t))
  end.
Proof.
  destruct w as [s st tr]. unfold task_in_range. simpl.
  destruct s as [? ? ? ? ? ? ? ? k t ? ? ? ? ? ? ? ? ?]. simpl.
  destruct k as [c|l]; intros Hr.
  - unfold meta_begin_task, mbind, M_bind, call_hook; simpl.
    by destruct (begin_task strategy ds _ st) as [[[]|e] st'].
  - destruct (py_getitem_in_range l t Hr) as (x & Hx & Hg).
    unfold meta_begin_task, mbind, M_bind, call_hook, lift; simpl.
    rewrite Hg; simpl.
    rewrite !py_slice_to_prefix, !py_sum_take by lia.
    rewrite Hx, Z2Nat.inj_add by lia. simpl.
    by destruct (begin_task strategy ds _ st) as [[[]|e] st'].
Qed.

(** With the hooks of the base class, [meta_begin_task] returns whenever
    the current task is in range. *)
Lemma meta_begin_task_returns (ds : Dataset.t) (w : World) :
  task_in_range (self w) →
  (∀ s st, ∃ st', begin_task strategy ds s st = (Ok tt, st')) →
  ∃ w', meta_begin_task strategy ds w = (Ok tt, w').
Proof.
  destruct w as [s st tr]. unfold task_in_range. simpl.
  destruct s as [? ? ? ? ? ? ? ? k t ? ? ? ? ? ? ? ? ?]. simpl.
  intros Hr Hh.
  destruct k as [c|l].
  - unfold meta_begin_task, mbind, M_bind, call_hook; simpl.
    edestruct Hh as [st' ->]. eauto.
  - destruct (py_getitem_in_range l t Hr) as (x & Hx & Hg).
    unfold meta_begin_task, mbind, M_bind, call_hook, lift; simpl.
    rewrite Hg; simpl.
    edestruct Hh as [st' ->]. eauto.
Qed.

(** A sequence index past the end stops [meta_begin_task] at line 128,
    before any attribute is assigned. *)
Lemma meta_begin_task_out_of_range (ds : Dataset.t) (w : World) (l : list Z) :
  cpt (self w) = CptSeq l →
  Z.of_nat (length l) ≤ current_task (self w) →
  meta_begin_task strategy ds w = (Raise IndexError, w).
Proof.
  destruct w as [s st tr]. simpl. intros Hc Hr.
  unfold meta_begin_task, mbind, M_bind, lift; simpl. rewrite Hc.
  unfold py_getitem.
  destruct (Z.ltb_spec (current_task s) 0); [lia|].
  destruct (Z.leb_spec 0 (current_task s)); [|lia].
  by destruct (Z.ltb_spec (current_task s) (Z.of_nat (length l))); [lia|].
Qed.

(** [meta_begin_task] assigns none of the attributes it reads. *)
Lemma meta_begin_task_N_CLASSES (ds : Dataset.t) (w : World) :
  N_CLASSES (self (meta_begin_task strategy ds w).2) = N_CLASSES (self w).
Proof.
  destruct w as [s st tr].
  destruct s as [? ? ? ? ? ? ? ? k t ? ? ? ? ? ? ? ? ?].
  unfold meta_begin_task, mbind, M_bind, call_hook, lift, getattr; simpl.
  destruct k as [c|l]; simpl.
  - by destruct (begin_task strategy ds _ st) as [[[]|e] st'].
  - destruct (py_getitem l t); simpl; [|done].
    by destruct (begin_task strategy ds _ st) as [[[]|e] st'].
Qed.

(** [meta_begin_task] keeps the task counter, [meta_end_task] advances it
    by one, so that the counter, 0 after construction, is never negative. *)
Lemma meta_begin_task_current_task (ds : Dataset.t) (w : World) :
  current_task (self (meta_begin_task strategy ds w).2)
  = current_task (self w) ∧
  cpt (self (meta_begin_task strategy ds w).2) = cpt (self w).
Proof.
  destruct w as [s st tr].
  destruct s as [? ? ? ? ? ? ? ? k t ? ? ? ? ? ? ? ? ?].
  unfold meta_begin_task, mbind, M_bind, call_hook, lift, getattr; simpl.
  destruct k as [c|l]; simpl.
  - by destruct (begin_task strategy ds _ st) as [[[]|e] st'].
  - destruct (py_getitem l t); simpl; [|done].
    by destruct (begin_task strategy ds _ st) as [[[]|e] st'].
Qed.

Lemma meta_end_task_current_task (ds : Dataset.t) (w : World) :
  current_task (self (meta_end_task strategy ds w).2)
  = current_task (self w) + 1.
Proof.
  destruct w as [s st tr]. destruct s.
  unfold meta_end_task, mbind, M_bind, call_hook; simpl.
  by destruct (end_task strategy ds _ st) as [[[]|e] st'].
Qed.

End TaskProgress.

(** C1: after [meta_begin_task] at task index [t], with a uniform class
    count [c] the classes seen are [c * (t + 1)] and the past classes
    [c * t]; with a per-task sequence they are the sums of its entries up
    to and including index [t], and up to but excluding it. *)
Theorem meta_begin_task_seen_and_past `{Collaborators}
    (strategy : Strategy) (ds : Dataset.t) (w : World) :
  task_in_range (self w) →
  let s' := self (meta_begin_task strategy ds w).2 in
  let t := current_task (self w) in
  match cpt (self w) with
  | CptInt c =>
      n_seen_classes s' = Some (c * (t + 1)) ∧
      n_past_classes s' = Some (c * t)
  | CptSeq l =>
      n_seen_classes s' = Some (prefix_sum l (Z.to_nat t + 1)) ∧
      n_past_classes s' = Some (prefix_sum l (Z.to_nat t))
  end.
Proof.
  intros Hr. pose proof (meta_begin_task_fields strategy ds w Hr) as Hf.
  simpl in *. destruct (cpt (self w)); tauto.
Qed.

Lemma meta_begin_task_seen_and_past_witness :
  task_in_range (self lab_world) ∧
  let s' := self (meta_begin_task (inherit_all "sgd" ["class-il"])
                    ds_uneven lab_world).2 in
  n_seen_classes s' = Some 5 ∧ n_past_classes s' = Some 2.
Proof.
  split.
  - unfold task_in_range; simpl; lia.
  - apply (meta_begin_task_seen_and_past
             (inherit_all "sgd" ["class-il"]) ds_uneven lab_world).
    unfold task_in_range; simpl; lia.
Defined.

(** C10: after [meta_begin_task], whether the class count is one number or
    a sequence, the classes seen and the classes remaining add up to
    [N_CLASSES], and the past classes and the classes of the current task
    add up to the classes seen. *)
Theorem meta_begin_task_invariant `{Collaborators}
    (strategy : Strategy) (ds : Dataset.t) (w : World) :
  task_in_range (self w) →
  let s' := self (meta_begin_task strategy ds w).2 in
  ∃ current seen remaining past : Z,
    n_classes_current_task s' = Some current ∧
    n_seen_classes s' = Some seen ∧
    n_remaining_classes s' = Some remaining ∧
    n_past_classes s' = Some past ∧
    seen + remaining = N_CLASSES s' ∧
    past + current = seen.
Proof.
  intros Hr. pose proof (meta_begin_task_fields strategy ds w Hr) as Hf.
  pose proof (meta_begin_task_N_CLASSES strategy ds w) as HN.
  simpl in *. rewrite HN.
  destruct (cpt (self w)) as [c|l]; destruct Hf as (-> & -> & -> & ->).
  - eexists _, _, _, _. repeat split; lia.
  - eexists _, _, _, _. repeat split; [lia|].
    rewrite Nat.add_1_r. simpl. lia.
Qed.

Lemma meta_begin_task_invariant_witness :
  task_in_range (self lab_world) ∧
  ∃ current seen remaining past : Z,
    let s' := self (meta_begin_task (inherit_all "sgd" ["class-il"])
                      ds_uneven lab_world).2 in
    n_classes_current_task s' = Some current ∧
    n_seen_classes s' = Some seen ∧
    n_remaining_classes s' = Some remaining ∧
    n_past_classes s' = Some past ∧
    seen + remaining = N_CLASSES s' ∧
    past + current = seen.
Proof.
  split.
  - unfold task_in_range; simpl; lia.
  - apply (meta_begin_task_invariant
             (inherit_all "sgd" ["class-il"]) ds_uneven lab_world).
    unfold task_in_range; simpl; lia.
Defined.

(** ** The abstract observation step *)

Section AbstractObserve.

Context {collab : Collaborators}.

(** Binding a parameter fails with a [TypeError] only. *)
Lemma bind_param_raises (posargs : list pyval) (kwargs : gmap string pyval)
    (i : nat) (name : string) (dflt : option pyval) (e : exn) :
  bind_param posargs kwargs i name dflt = Raise e → e = TypeError.
Proof.
  unfold bind_param. intros Hb.
  repeat case_match; by simplify_eq.
Qed.

(** However the base class's [observe] is called, it raises: a
    [TypeError] when the arguments do not fit its parameters, its
    [NotImplementedError] when they do. *)
Lemma ContinualModel_observe_raises (posargs : list pyval)
    (kwargs : gmap string pyval) (s : Self) (st : StrategyState) :
  ∃ e, ContinualModel_observe posargs kwargs s st = (Raise e, st) ∧
       (e = TypeError ∨ e = NotImplementedError "").
Proof.
  unfold ContinualModel_observe.
  destruct (4 <? length posargs)%nat; [by eauto|].
  case_bool_decide; [|by eauto].
  destruct (bind_param posargs kwargs 0 "inputs" None) as [?|e0] eqn:H0;
    [|apply bind_param_raises in H0 as ->; by eauto].
  destruct (bind_param posargs kwargs 1 "labels" None) as [?|e1] eqn:H1;
    [|apply bind_param_raises in H1 as ->; by eauto].
  destruct (bind_param posargs kwargs 2 "not_aug_inputs" None)
    as [?|e2] eqn:H2;
    [|apply bind_param_raises in H2 as ->; by eauto].
  destruct (bind_param posargs kwargs 3 "epoch" (Some VNone))
    as [?|e3] eqn:H3;
    [by eauto|apply bind_param_raises in H3 as ->; by eauto].
Qed.

End AbstractObserve.

(** C9: the base class's [observe] raises [NotImplementedError] on every
    input, and however it is called it never returns a value. *)
Theorem observe_not_implemented `{Collaborators} :
  (∀ (inputs labels not_aug_inputs epoch : pyval) (s : Self)
     (st : StrategyState),
     observe_body inputs labels not_aug_inputs epoch s st
     = (Raise (NotImplementedError ""), st)) ∧
  (∀ (posargs : list pyval) (kwargs : gmap string pyval) (s : Self)
     (st : StrategyState),
     ¬ is_Ok (ContinualModel_observe posargs kwargs s st).1).
Proof.
  split; [done|].
  intros posargs kwargs s st [out Hout].
  destruct (ContinualModel_observe_raises posargs kwargs s st)
    as (e & Hraise & _).
  by rewrite Hraise in Hout.
Qed.

(** ** Buffer attachment *)

(** C6: a buffer whose number of stored examples differs from
    [args.buffer_size] makes [load_buffer] fail with an [AssertionError]
    and leaves the controller as it was; with equal numbers [load_buffer]
    returns and the buffer can be read back from the controller. *)
Theorem load_buffer_checks_size `{Collaborators}
    (b : Buffer) (w : World) (n : Z) :
  shape0 (examples b) = Ok n →
  (n ≠ buffer_size (args (self w)) →
   load_buffer b w
   = (Raise (AssertionError
               ("Buffer size mismatch. Expected "
                +:+ pretty (buffer_size (args (self w)))
                +:+ " got " +:+ pretty n)), w)) ∧
  (n = buffer_size (args (self w)) →
   ∃ w', load_buffer b w = (Ok tt, w') ∧
         buffer (self w') = Some b ∧
         strat w' = strat w ∧ trace w' = trace w).
Proof.
  intros Hn. unfold load_buffer, mbind, M_bind, lift, get_self; simpl.
  rewrite Hn. split; intros Hs.
  - by destruct (Z.eqb_spec n (buffer_size (args (self w)))).
  - destruct (Z.eqb_spec n (buffer_size (args (self w)))); [|done].
    eexists. split; [reflexivity|]. simpl. by destruct (self w).
Qed.

Lemma load_buffer_checks_size_witness :
  load_buffer (replay 500) lab_world
  = (Raise (AssertionError "Buffer size mismatch. Expected 1000 got 500"),
     lab_world) ∧
  ∃ w', load_buffer (replay 1000) lab_world = (Ok tt, w') ∧
        buffer (self w') = Some (replay 1000).
Proof.
  split.
  - apply (load_buffer_checks_size (replay 500) lab_world 500 eq_refl).
    simpl. lia.
  - destruct (load_buffer_checks_size (replay 1000) lab_world 1000 eq_refl)
      as [_ Hload].
    destruct (Hload eq_refl) as (w' & Hrun & Hbuf & _). eauto.
Defined.

(** ** Optimizer selection *)

Section OptimizerSelection.

Context {collab : Collaborators}.

(** The dictionary of line 78 maps a lower-case name to the last name of
    [dir(optim)] that has this lower-case form. *)
Lemma supported_optims_lookup (k : string) :
  supported_optims !! k = last (filter (λ n, lower n = k) optim_dir).
Proof.
  unfold supported_optims.
  induction optim_dir as [|x l IH] using rev_ind; [done|].
  rewrite foldl_app, filter_app. simpl.
  rewrite filter_cons, filter_nil.
  destruct (decide (lower x = k)) as [->|Hne].
  - by rewrite lookup_insert_eq, last_snoc.
  - by rewrite lookup_insert_ne, app_nil_r.
Qed.

Lemma supported_optims_Some (k name : string) :
  supported_optims !! k = Some name → name ∈ optim_dir ∧ lower name = k.
Proof.
  rewrite supported_optims_lookup. intros Hl.
  apply last_Some_elem_of in Hl.
  by apply list_elem_of_filter in Hl as [? ?].
Qed.

Lemma supported_optims_None (k : string) :
  supported_optims !! k = None ↔ ∀ name, name ∈ optim_dir → lower name ≠ k.
Proof.
  rewrite supported_optims_lookup, last_None. split.
  - intros Hnil name Hin Heq.
    assert (name ∈ filter (λ n, lower n = k) optim_dir) as Hf
      by by apply list_elem_of_filter.
    rewrite Hnil in Hf. by apply not_elem_of_nil in Hf.
  - intros Hall. apply elem_of_nil_inv. intros name Hf.
    apply list_elem_of_filter in Hf as [Heq Hin]. by apply (Hall name).
Qed.

End OptimizerSelection.

(** C5, as the code has it: the requested optimizer name is compared with
    the names of [dir(optim)] in lower case.  Without a match
    [get_optimizer] raises [ValueError]; with a match, also one spelled in
    another case, it calls the constructor registered under a matching
    name and its outcome is that of the constructor: the optimizer when
    the constructor returns one, the constructor's exception when it
    raises. *)
Theorem get_optimizer_ignores_case `{Collaborators} (w : World) :
  let a := args (self w) in
  ((∀ name, name ∈ optim_dir → lower name ≠ lower (optimizer a)) →
   get_optimizer w
   = (Raise (ValueError ("Unknown optimizer: " +:+ optimizer a)), w)) ∧
  (∀ b : Backbone,
     net (self w) = Some b →
     (∃ name, name ∈ optim_dir ∧ lower name = lower (optimizer a)) →
     ∃ name,
       name ∈ optim_dir ∧ lower name = lower (optimizer a) ∧
       get_optimizer w
       = (optim_call name (parameters b) (lr a) (optim_wd a) (optim_mom a),
          w)).
Proof.
  simpl. split.
  - intros Hnone. apply supported_optims_None in Hnone.
    unfold get_optimizer, mbind, M_bind, get_self; simpl. by rewrite Hnone.
  - intros b Hnet (n0 & Hin & Hlow).
    destruct (supported_optims !! lower (optimizer (args (self w))))
      as [name|] eqn:Hl.
    + destruct (supported_optims_Some _ _ Hl) as [Hin' Hlow'].
      exists name. split_and!; [done..|].
      unfold get_optimizer, mbind, M_bind, get_self, lift; simpl.
      rewrite Hl, Hnet. simpl.
      by destruct (optim_call _ _ _ _ _).
    + exfalso. by eapply supported_optims_None.
Qed.

Lemma get_optimizer_ignores_case_witness :
  get_optimizer (lab_world_with (lab_args_with "adam" 1000 false false))
  = (Raise (ValueError "Unknown optimizer: adam"),
     lab_world_with (lab_args_with "adam" 1000 false false)) ∧
  get_optimizer (lab_world_with (lab_args_with "SGD" 1000 false false))
  = (Ok "sgd", lab_world_with (lab_args_with "SGD" 1000 false false)).
Proof.
  split.
  - apply (get_optimizer_ignores_case
             (lab_world_with (lab_args_with "adam" 1000 false false))).
    intros name Hin. apply list_elem_of_singleton in Hin as ->. done.
  - destruct (get_optimizer_ignores_case
                (lab_world_with (lab_args_with "SGD" 1000 false false)))
      as [_ Hsome].
    destruct (Hsome tt eq_refl) as (name & Hin & _ & Hrun).
    + exists "sgd". split; [by apply list_elem_of_singleton|done].
    + apply list_elem_of_singleton in Hin as ->. exact Hrun.
Defined.

(** C5, as it is stated, fails when the constructor that matches rejects
    the call: [adam] matches [Adam] in another case, and the call of
    [Adam] with the keyword [momentum] raises [TypeError], so that neither
    [get_optimizer] nor the constructor of the controller returns. *)
Lemma get_optimizer_match_may_raise :
  "Adam" ∈ @optim_dir lab_adam ∧
  lower "Adam" = lower (optimizer (args (self (lab_adam_world "adam")))) ∧
  "Adam" ≠ optimizer (args (self (lab_adam_world "adam"))) ∧
  get_optimizer (lab_adam_world "adam")
  = (Raise TypeError, lab_adam_world "adam") ∧
  (__init__ (inherit_all (collab := lab_adam) "sgd" ["class-il"])
     (Some tt) tt (lab_args_with "adam" 1000 false false) lab_pipeline
     0%nat []).1
  = Raise TypeError.
Proof.
  split_and!; [|reflexivity|discriminate|vm_compute; reflexivity..].
  apply list_elem_of_here.
Qed.

(** ** The observation wrapper *)

Section MetaObserve.

Context {collab : Collaborators} (strategy : Strategy).

Lemma observe_calls_snoc (tr : list event) (e : event) :
  observe_calls (tr ++ [e])
  = observe_calls tr
    ++ match e with ObserveCall a k => [(a, k)] | _ => [] end.
Proof.
  induction tr as [|e' tr IH]; simpl.
  - by destruct e.
  - destruct e'; rewrite IH; by destruct e.
Qed.

Lemma log_calls_snoc (tr : list event) (e : event) :
  log_calls (tr ++ [e])
  = log_calls tr ++ match e with WandbLog d => [d] | _ => [] end.
Proof.
  induction tr as [|e' tr IH]; simpl.
  - by destruct e.
  - destruct e'; rewrite IH; by destruct e.
Qed.

(** When lines 116-118 raise, so does [meta_observe], before any call. *)
Lemma meta_observe_drop_raises posargs kwargs (w : World) (e : exn) :
  after_drop strategy posargs = Raise e →
  meta_observe strategy posargs kwargs w = (Raise e, w).
Proof.
  unfold after_drop, meta_observe, mbind, M_bind, lift.
  destruct (negb (supports_cssl strategy)); [|done]. by intros ->.
Qed.

(** Otherwise [meta_observe] calls [observe] once, on the list they leave
    and on the keyword arguments, and logs once if logging is on. *)
Lemma meta_observe_run posargs kwargs (w : World) (posargs' : list pyval) :
  after_drop strategy posargs = Ok posargs' →
  meta_observe strategy posargs kwargs w =
    let a := args (self w) in
    let tr := trace w ++ [ObserveCall posargs' kwargs] in
    match observe strategy posargs' kwargs (self w) (strat w) with
    | (Raise e, st') => (Raise e, mkWorld (self w) st' tr)
    | (Ok out, st') =>
        if wandb_imported && negb (nowand a) && negb (debug_mode a)
        then (Ok out.1, mkWorld (self w) st' (tr ++ [WandbLog (logged out.2)]))
        else (Ok out.1, mkWorld (self w) st' tr)
    end.
Proof.
  unfold after_drop, meta_observe, logged. intros Hd.
  assert ((if negb (supports_cssl strategy)
           then lift (drop_unlabeled posargs) else mret posargs) w
          = (Ok posargs', w)) as Hpre.
  { unfold lift, mret, M_ret. revert Hd.
    destruct (negb (supports_cssl strategy)); intros Hd;
      [by rewrite Hd | by inversion Hd]. }
  unfold mbind at 1. unfold M_bind at 1. rewrite Hpre.
  unfold call_observe, call_hook, autolog_wandb.
  destruct (observe strategy posargs' kwargs (self w) (strat w))
    as [[out|e] st'] eqn:Hobs;
    destruct wandb_imported;
    destruct (nowand (args (self w))) eqn:Hnw;
    destruct (debug_mode (args (self w))) eqn:Hdb;
    unfold mbind, M_bind, mret, M_ret, get_self, emit; simpl;
    rewrite ?Hnw; simpl; rewrite Hobs; simpl; rewrite ?Hnw, ?Hdb; done.
Qed.

(** A strategy that inherits [observe] cannot complete a [meta_observe]. *)
Lemma meta_observe_inherited_raises posargs kwargs (w : World) :
  observe strategy = ContinualModel_observe →
  ¬ is_Ok (meta_observe strategy posargs kwargs w).1.
Proof.
  intros Hobs [ret Hret]. revert Hret.
  destruct (after_drop strategy posargs) as [posargs'|e] eqn:Hd.
  - rewrite (meta_observe_run posargs kwargs w posargs' Hd). cbv zeta.
    rewrite Hobs.
    destruct (ContinualModel_observe_raises posargs' kwargs (self w) (strat w))
      as (e & -> & _).
    done.
  - by rewrite (meta_observe_drop_raises posargs kwargs w e Hd).
Qed.

End MetaObserve.

Section Logging.

Context {collab : Collaborators} (strategy : Strategy).

(** An entry of the logged mapping is a local variable whose name starts
    with [_wandb_] or [loss], a zero-dimensional tensor being replaced by
    the number it holds. *)
Lemma logged_lookup (ls : gmap string pyval) (k : string) :
  logged ls !! k
  = if logged_name k then item_if_scalar <$> ls !! k else None.
Proof.
  unfold logged. rewrite (left_id_L ∅ (∪)), lookup_fmap.
  destruct (logged_name k) eqn:Hk.
  - destruct (ls !! k) as [v|] eqn:Hv; simpl.
    + assert (filter (λ kv : string * pyval, logged_name kv.1) ls !! k
              = Some v) as ->; [|done].
      apply map_lookup_filter_Some. split; [done|].
      exact (Is_true_true_2 _ Hk).
    + assert (filter (λ kv : string * pyval, logged_name kv.1) ls !! k
              = None) as ->; [|done].
      apply map_lookup_filter_None. by left.
  - assert (filter (λ kv : string * pyval, logged_name kv.1) ls !! k
            = None) as ->; [|done].
    apply map_lookup_filter_None. right. intros v _.
    exact (Is_true_false_2 _ Hk).
Qed.

(** The calls of [wandb.log] that one [meta_observe] adds. *)
Lemma meta_observe_log_calls posargs kwargs (w : World) :
  let a := args (self w) in
  log_calls (trace (meta_observe strategy posargs kwargs w).2)
  = log_calls (trace w)
    ++ match after_drop strategy posargs with
       | Raise _ => []
       | Ok posargs' =>
           match observe strategy posargs' kwargs (self w) (strat w) with
           | (Raise _, _) => []
           | (Ok out, _) =>
               if wandb_imported && negb (nowand a) && negb (debug_mode a)
               then [logged out.2] else []
           end
       end.
Proof.
  simpl. destruct (after_drop strategy posargs) as [posargs'|e] eqn:Hd.
  - rewrite (meta_observe_run strategy posargs kwargs w posargs' Hd). simpl.
    destruct (observe strategy posargs' kwargs (self w) (strat w))
      as [[out|e] st']; simpl.
    + destruct (wandb_imported && negb (nowand (args (self w)))
                && negb (debug_mode (args (self w)))); simpl;
        rewrite !log_calls_snoc; simpl; by rewrite ?app_nil_r.
    + rewrite log_calls_snoc. simpl. by rewrite app_nil_r.
  - rewrite (meta_observe_drop_raises strategy posargs kwargs w e Hd).
    by rewrite app_nil_r.
Qed.

End Logging.

(** C3: a strategy whose compatibility tags contain [cssl] has its
    [observe] called by [meta_observe] on the very arguments that
    [meta_observe] received, positional and keyword, whatever the labels. *)
Theorem meta_observe_cssl_keeps_arguments `{Collaborators}
    (strategy : Strategy) (posargs : list pyval)
    (kwargs : gmap string pyval) (w : World) :
  "cssl" ∈ COMPATIBILITY strategy →
  observe_calls (trace (meta_observe strategy posargs kwargs w).2)
  = observe_calls (trace w) ++ [(posargs, kwargs)].
Proof.
  intros Hc.
  assert (after_drop strategy posargs = Ok posargs) as Hd.
  { unfold after_drop, supports_cssl. by rewrite bool_decide_eq_true_2. }
  rewrite (meta_observe_run strategy posargs kwargs w posargs Hd). simpl.
  destruct (observe strategy posargs kwargs (self w) (strat w))
    as [[out|e] st']; simpl.
  - destruct (wandb_imported && negb (nowand (args (self w)))
              && negb (debug_mode (args (self w)))); simpl;
      rewrite !observe_calls_snoc; simpl; by rewrite ?app_nil_r.
  - by rewrite observe_calls_snoc.
Qed.

Lemma meta_observe_cssl_keeps_arguments_witness :
  observe_calls
    (trace (meta_observe (lab_strategy ["class-il"; "cssl"]) lab_batch
              lab_logits (lab_world_with lab_args)).2)
  = [(lab_batch, lab_logits)].
Proof.
  apply (meta_observe_cssl_keeps_arguments
           (lab_strategy ["class-il"; "cssl"]) lab_batch lab_logits
           (lab_world_with lab_args)).
  repeat constructor.
Defined.

(** C7: with [wandb] imported, [nowand] off and [debug_mode] off, a
    [meta_observe] whose [observe] returns with a local variable [loss]
    calls [wandb.log] exactly once, with a mapping that holds under
    [loss] that value, 2.5 for 2.5; the mapping holds the local variables
    whose name starts with [_wandb_] or [loss], a zero-dimensional tensor
    being replaced by the number it holds.  With [wandb] absent, [nowand]
    on or [debug_mode] on it does not call [wandb.log], whatever the
    locals. *)
Theorem meta_observe_autolog `{Collaborators}
    (strategy : Strategy) (posargs : list pyval)
    (kwargs : gmap string pyval) (w : World) :
  let a := args (self w) in
  let w' := (meta_observe strategy posargs kwargs w).2 in
  (wandb_imported = true → nowand a = false → debug_mode a = false →
   ∀ posargs' ret ls st' v,
     after_drop strategy posargs = Ok posargs' →
     observe strategy posargs' kwargs (self w) (strat w) = (Ok (ret, ls), st') →
     ls !! "loss" = Some v →
     ∃ d, log_calls (trace w') = log_calls (trace w) ++ [d] ∧
          d !! "loss" = Some (item_if_scalar v) ∧
          (v = VFloat 2.5 → d !! "loss" = Some (VFloat 2.5)) ∧
          (∀ x, v = VTensor (Item x) → d !! "loss" = Some (item x)) ∧
          (∀ k, d !! k = if logged_name k
                         then item_if_scalar <$> ls !! k else None)) ∧
  (wandb_imported = false ∨ nowand a = true ∨ debug_mode a = true →
   log_calls (trace w') = log_calls (trace w)).
Proof.
  simpl. rewrite meta_observe_log_calls. split.
  - intros Hw Hn Hd posargs' ret ls st' v Hdrop Hobs Hloss.
    rewrite Hdrop, Hobs, Hw, Hn, Hd. simpl.
    exists (logged ls).
    assert (logged ls !! "loss" = Some (item_if_scalar v)) as Hl.
    { by rewrite logged_lookup, Hloss. }
    split_and!; [done..| | |]; [by intros ->|by intros x ->|].
    intros k. apply logged_lookup.
  - intros Hoff.
    destruct (after_drop strategy posargs) as [posargs'|e];
      [|by rewrite app_nil_r].
    destruct (observe strategy posargs' kwargs (self w) (strat w))
      as [[out|e] st']; [|by rewrite app_nil_r].
    destruct Hoff as [-> | [-> | ->]]; simpl;
      rewrite ?andb_false_r; by rewrite app_nil_r.
Qed.

Lemma meta_observe_autolog_witness :
  (∃ d,
     log_calls
       (trace (meta_observe (lab_strategy ["class-il"]) lab_batch ∅
                 (lab_world_with lab_args)).2) = [d] ∧
     d !! "loss" = Some (VFloat 2.5)) ∧
  log_calls
    (trace (meta_observe (lab_strategy ["class-il"]) lab_batch ∅
              (lab_world_with (lab_args_with "SGD" 1000 false true))).2)
  = [].
Proof.
  split.
  - destruct (meta_observe_autolog (lab_strategy ["class-il"]) lab_batch ∅
                (lab_world_with lab_args)) as [Hon _].
    edestruct Hon as (d & Hd & _ & Hloss & _ & _);
      [reflexivity | reflexivity | reflexivity
      | vm_compute; reflexivity | reflexivity | vm_compute; reflexivity |].
    exists d. split; [exact Hd | exact (Hloss eq_refl)].
  - destruct (meta_observe_autolog (lab_strategy ["class-il"]) lab_batch ∅
                (lab_world_with (lab_args_with "SGD" 1000 false true)))
      as [_ Hoff].
    apply Hoff. right. right. reflexivity.
Defined.

(** ** Dropping the unlabeled examples *)

Section DropUnlabeled.

Context {collab : Collaborators} (strategy : Strategy).

(** [select] row by row. *)
Lemma select_rows_cons (m : mask) (ms : list mask) (r : tensor)
    (rs : list tensor) :
  select (MRows (m :: ms)) (Rows (r :: rs))
  = match select m r with
    | Ok xs =>
        match select (MRows ms) (Rows rs) with
        | Ok ys => Ok (xs ++ ys)
        | Raise e => Raise e
        end
    | Raise e => Raise e
    end.
Proof. reflexivity. Qed.

Lemma int_labels_cons (z : Z) (ls : list Z) :
  tensor_ne_m1 (int_labels (z :: ls))
  = MRows (MItem (negb (z =? -1))
           :: match tensor_ne_m1 (int_labels ls) with
              | MRows ms => ms
              | MItem _ => []
              end).
Proof. reflexivity. Qed.

Lemma int_labels_mask (ls : list Z) :
  ∃ ms, tensor_ne_m1 (int_labels ls) = MRows ms.
Proof. by eexists. Qed.

(** Indexing with the mask of a list of labels keeps the rows whose label
    is not the sentinel. *)
Lemma select_int_labels (ls : list Z) (rs : list tensor) :
  length rs = length ls →
  select (tensor_ne_m1 (int_labels ls)) (Rows rs) = Ok (labeled_rows ls rs).
Proof.
  unfold labeled_rows. revert rs.
  induction ls as [|z ls IH]; intros [|r rs] Hlen; try done.
  specialize (IH rs ltac:(by injection Hlen)).
  rewrite int_labels_cons. destruct (int_labels_mask ls) as [ms Hms].
  rewrite Hms in IH |- *. rewrite select_rows_cons, IH.
  cbn [zip zip_with select]. rewrite filter_cons. cbn [fst].
  destruct (Z.eqb_spec z (-1)) as [->|Hz].
  - by rewrite decide_False by (intros Hne; by apply Hne).
  - by rewrite decide_True.
Qed.

(** A mask and a tensor of different lengths do not fit. *)
Lemma select_length_mismatch (ls : list Z) (rs : list tensor) :
  length rs ≠ length ls →
  select (tensor_ne_m1 (int_labels ls)) (Rows rs) = Raise IndexError.
Proof.
  revert rs. induction ls as [|z ls IH]; intros [|r rs] Hlen; try done.
  specialize (IH rs ltac:(simpl in Hlen; congruence)).
  rewrite int_labels_cons. destruct (int_labels_mask ls) as [ms Hms].
  rewrite Hms in IH |- *. rewrite select_rows_cons, IH.
  cbn [select]. by destruct (negb (z =? -1)).
Qed.

(** The kept rows are the rows at the labeled positions. *)
Lemma labeled_rows_positions (ls : list Z) (rs : list tensor) :
  length rs = length ls →
  labeled_rows ls rs = omap (λ i, rs !! i) (labeled_positions ls).
Proof.
  unfold labeled_rows, labeled_positions. revert rs.
  induction ls as [|z ls IH]; intros [|r rs] Hlen; try done.
  specialize (IH rs ltac:(by injection Hlen)).
  cbn [length seq zip zip_with]. rewrite <- fmap_S_seq, !filter_cons.
  assert (filter (λ i, (z :: ls) !! i ≠ Some (-1)) (S <$> seq 0 (length ls))
          = S <$> filter (λ i, ls !! i ≠ Some (-1)) (seq 0 (length ls)))
    as ->.
  { generalize (seq 0 (length ls)). intros l.
    induction l as [|i l IHl]; [done|].
    rewrite fmap_cons, !filter_cons. simpl.
    destruct (decide (ls !! i ≠ Some (-1))); by rewrite IHl. }
  assert (∀ l : list nat,
            omap (λ i, (r :: rs) !! i) (S <$> l) = omap (λ i, rs !! i) l)
    as Hshift.
  { intros l. induction l as [|i l IHl]; [done|].
    cbn. by rewrite <- IHl. }
  simpl. destruct (decide (z ≠ -1)) as [Hz|Hz].
  - rewrite decide_True by congruence. cbn.
    rewrite Hshift. by rewrite IH.
  - rewrite decide_False by (intros Hne; apply Hz; congruence).
    rewrite Hshift. by rewrite IH.
Qed.

(** [mapM] of a function that always returns is [fmap]. *)
Lemma mapM_result_Ok {A B} (f : A → result B) (g : A → B) (l : list A) :
  Forall (λ x, f x = Ok (g x)) l → mapM f l = Ok (g <$> l).
Proof.
  induction 1 as [|x l Hx _ IH]; [done|].
  cbn. rewrite Hx. cbn. by rewrite IH.
Qed.

(** Lines 117-118 on a batch whose first argument has one row per label
    and that holds no zero-dimensional tensor. *)
Lemma drop_unlabeled_batch (inputs : list tensor) (ls : list Z)
    (rest : list pyval) :
  length inputs = length ls →
  Forall (λ v, ∀ x, v ≠ VTensor (Item x)) rest →
  let posargs := VTensor (Rows inputs) :: VTensor (int_labels ls) :: rest in
  drop_unlabeled posargs = Ok (keep_labeled ls <$> posargs).
Proof.
  intros Hlen Hrest posargs. unfold drop_unlabeled.
  assert (py_getitem posargs 1 = Ok (VTensor (int_labels ls))) as ->.
  { destruct (py_getitem_in_range posargs 1) as (x & Hx & ->);
      [unfold posargs; cbn [length]; lia|].
    by injection Hx as <-. }
  assert (py_getitem posargs 0 = Ok (VTensor (Rows inputs))) as Hfirst.
  { destruct (py_getitem_in_range posargs 0) as (x & Hx & ->);
      [unfold posargs; cbn [length]; lia|].
    by injection Hx as <-. }
  cbn [mbind result_bind]. apply mapM_result_Ok.
  assert (∀ rs, drop_in posargs (ne_m1 (VTensor (int_labels ls)))
                  (VTensor (Rows rs))
                = Ok (keep_labeled ls (VTensor (Rows rs)))) as Hrows.
  { intros rs. unfold drop_in.
    rewrite Hfirst.
    cbn [mbind result_bind shape0 keep_labeled ne_m1 index_mask].
    rewrite Hlen.
    destruct (Z.eqb_spec (Z.of_nat (length rs)) (Z.of_nat (length ls)))
      as [Heq|Hne].
    - apply Nat2Z.inj in Heq. rewrite decide_True by done.
      unfold index_mask. by rewrite select_int_labels.
    - rewrite decide_False; [done|]. intros Heq. by rewrite Heq in Hne. }
  repeat apply Forall_cons_2.
  - apply Hrows.
  - apply Hrows.
  - eapply Forall_impl; [exact Hrest|]. intros v Hv.
    destruct v as [| | | |[x|rs]]; [done..| |apply Hrows].
    by destruct (Hv x).
Qed.

End DropUnlabeled.

(** C2, as the code has it: for a strategy whose compatibility tags do not
    contain [cssl], and a batch whose first argument has one row per label,
    the labels being a one-dimensional tensor of a signed integer dtype,
    [meta_observe] calls [observe] on the positional arguments in which
    every tensor with that many rows has lost the rows of the unlabeled
    examples, the rows kept being those at the labeled positions, in
    order, the same positions for every argument; the other positional
    arguments and all keyword arguments are passed as they are. *)
Theorem meta_observe_drops_unlabeled `{Collaborators}
    (strategy : Strategy) (inputs : list tensor) (ls : list Z)
    (rest : list pyval) (kwargs : gmap string pyval) (w : World) :
  "cssl" ∉ COMPATIBILITY strategy →
  length inputs = length ls →
  Forall (λ v, ∀ x, v ≠ VTensor (Item x)) rest →
  let posargs := VTensor (Rows inputs) :: VTensor (int_labels ls) :: rest in
  observe_calls (trace (meta_observe strategy posargs kwargs w).2)
  = observe_calls (trace w) ++ [(keep_labeled ls <$> posargs, kwargs)] ∧
  ∀ rs, length rs = length ls →
        keep_labeled ls (VTensor (Rows rs))
        = VTensor (Rows (omap (λ i, rs !! i) (labeled_positions ls))).
Proof.
  intros Hc Hlen Hrest posargs. split.
  - assert (after_drop strategy posargs = Ok (keep_labeled ls <$> posargs))
      as Hd.
    { unfold after_drop, supports_cssl.
      rewrite bool_decide_eq_false_2 by done.
      by apply drop_unlabeled_batch. }
    rewrite (meta_observe_run strategy posargs kwargs w _ Hd).
    cbv zeta.
    destruct (observe strategy _ kwargs (self w) (strat w))
      as [[out|e] st'].
    + destruct (wandb_imported && negb (nowand (args (self w)))
                && negb (debug_mode (args (self w)))); cbn [trace snd];
        rewrite !observe_calls_snoc; by rewrite ?app_nil_r.
    + cbn [trace snd]. by rewrite observe_calls_snoc.
  - intros rs Hrs. unfold keep_labeled.
    rewrite decide_True by done. by rewrite labeled_rows_positions.
Qed.

Lemma meta_observe_drops_unlabeled_witness :
  observe_calls
    (trace (meta_observe (lab_strategy ["class-il"]) lab_batch lab_logits
              (lab_world_with lab_args)).2)
  = [([VTensor (Rows [image 10; image 30]); VTensor (int_labels [4; 7]);
       VTensor (Rows [image 10; image 30]); VInt 3],
      lab_logits)].
Proof.
  refine (proj1 (meta_observe_drops_unlabeled (lab_strategy ["class-il"])
                   lab_inputs lab_labels
                   [VTensor (Rows lab_inputs); VInt 3] lab_logits
                   (lab_world_with lab_args) _ eq_refl _)).
  - intros Hin. apply list_elem_of_singleton in Hin. discriminate.
  - repeat constructor; intros x Hx; discriminate.
Defined.

(** C2, as it is stated, fails for a keyword argument: the batch of three
    examples with one unlabeled reaches [observe] with two rows in its
    positional tensors and still three in the keyword argument. *)
Lemma meta_observe_keeps_keyword_rows :
  ∃ call,
    observe_calls
      (trace (meta_observe (lab_strategy ["class-il"]) lab_batch lab_logits
                (lab_world_with lab_args)).2) = [call] ∧
    ¬ drops_from_every_argument lab_labels lab_batch lab_logits call.
Proof.
  eexists. split; [vm_compute; reflexivity|].
  unfold drops_from_every_argument. intros Heq.
  apply (f_equal (λ c : list pyval * gmap string pyval,
                    c.2 !! "logits")) in Heq.
  vm_compute in Heq. discriminate.
Qed.

(** ** Construction *)

Section Construction.

Context {collab : Collaborators} (strategy : Strategy).

(** The constructor, cut after the kornia transforms. *)
Lemma init_cut_after_kornia backbone loss0 args0 transform0 st tr ds :
  get_dataset args0 = Ok ds →
  __init__ strategy backbone loss0 args0 transform0 st tr
  = match init_kornia
            (mkWorld (init_fields backbone loss0 args0 transform0 ds) st tr)
    with
    | (Ok _, w) =>
        match init_after_kornia strategy w with
        | (Ok _, w') => (Ok w', trace w')
        | (Raise e, w') => (Raise e, trace w')
        end
    | (Raise e, w) => (Raise e, trace w)
    end.
Proof.
  intros Hds. unfold __init__, init_after_kornia. rewrite Hds.
  unfold mbind at 1. unfold M_bind at 1.
  by destruct (init_kornia _) as [[[]|e] w].
Qed.

(** The constructor, cut before the check of the descriptor. *)
Lemma init_cut_before_checks backbone loss0 args0 transform0 st tr ds :
  get_dataset args0 = Ok ds →
  __init__ strategy backbone loss0 args0 transform0 st tr
  = match init_before_checks
            (mkWorld (init_fields backbone loss0 args0 transform0 ds) st tr)
    with
    | (Ok _, w) =>
        match init_checks strategy w with
        | (Ok _, w') => (Ok w', trace w')
        | (Raise e, w') => (Raise e, trace w')
        end
    | (Raise e, w) => (Raise e, trace w)
    end.
Proof.
  intros Hds. unfold __init__, init_before_checks. rewrite Hds.
  unfold mbind, M_bind.
  destruct (init_kornia _) as [[[]|e] w]; [|done].
  destruct (init_optimizer w) as [[[]|e] w']; [|done].
  by destruct (init_device w') as [[[]|e] w''].
Qed.

(** A failure inside the [try] leaves at most [weak_transform] assigned. *)
Lemma derive_kornia_raises (w w1 : World) (e : exn) :
  derive_kornia w = (Raise e, w1) →
  strat w1 = strat w ∧ trace w1 = trace w ∧
  set_normalization_transform None (set_weak_transform None (self w1))
  = set_normalization_transform None (set_weak_transform None (self w)).
Proof.
  unfold derive_kornia, mbind, M_bind, lift, get_self, modify_self.
  cbn [self strat trace].
  destruct (last_stage_transforms (transform (self w))) as [stages|e1];
    [|intros ?; by simplify_eq].
  destruct (to_kornia_transform (OfStages stages)) as [wt|e2];
    [|intros ?; by simplify_eq].
  destruct (Dataset.get_normalization_transform (dataset (self w)))
    as [nt|e3].
  - destruct (to_kornia_transform (OfTransform nt)) as [nk|e4];
      [done|intros ?; simplify_eq].
    cbn [self strat trace]. by destruct (self w).
  - intros ?; simplify_eq. cbn [self strat trace]. by destruct (self w).
Qed.

(** The [try] statement of lines 47-53 never raises; when its body does,
    both transforms are [None] afterwards and the warning is printed. *)
Lemma init_kornia_recovers (w w1 : World) (e : exn) :
  derive_kornia w = (Raise e, w1) →
  init_kornia w
  = (Ok tt,
     mkWorld
       (set_normalization_transform None (set_weak_transform None (self w)))
       (strat w) (trace w ++ [Print kornia_warning])).
Proof.
  intros Hd. destruct (derive_kornia_raises w w1 e Hd) as (Hs & Ht & Hf).
  unfold init_kornia, try_except. rewrite Hd.
  unfold mbind, M_bind, print, emit, modify_self. cbn [self strat trace].
  by rewrite Hs, Ht, Hf.
Qed.

(** The steps after the kornia transforms do not assign them, and they
    only add to what has been printed. *)
Lemma init_after_kornia_frame (w w' : World) (r : result unit) :
  init_after_kornia strategy w = (r, w') →
  weak_transform (self w') = weak_transform (self w) ∧
  normalization_transform (self w') = normalization_transform (self w) ∧
  ∃ more, trace w' = trace w ++ more.
Proof.
  unfold init_after_kornia, init_optimizer, init_device, init_checks,
    get_optimizer, mbind, M_bind, lift, get_self, modify_self, print, emit,
    raise, mret, M_ret.
  destruct w as [s st tr]. cbn [self strat trace].
  destruct s as [[b|] ? a ? ? ? ? ? ? ? ? ? ? ? ? ? ? ? ?];
    cbn [net args self strat trace set_opt set_device];
    intros Hrun; repeat case_match; simplify_eq;
    cbn [self trace weak_transform normalization_transform];
    (split_and!; [done..|]);
    first [ by exists []; rewrite app_nil_r
          | by eexists
          | rewrite <- app_assoc; by eexists ].
Qed.

(** A controller that has been constructed is on task 0. *)
Lemma init_current_task backbone loss0 args0 transform0 st tr (w : World)
    (tr' : list event) :
  __init__ strategy backbone loss0 args0 transform0 st tr = (Ok w, tr') →
  current_task (self w) = 0.
Proof.
  unfold __init__.
  destruct (get_dataset args0) as [ds|e]; [|done].
  unfold init_kornia, try_except, derive_kornia, init_optimizer, init_device,
    init_checks, get_optimizer, mbind, M_bind, lift, get_self, modify_self,
    print, emit, raise, mret, M_ret.
  cbn [self strat trace init_fields net args transform dataset set_opt
         set_device set_weak_transform set_normalization_transform].
  intros Hrun. repeat case_match; by simplify_eq.
Qed.

(** With an empty name or no compatibility tag the check of lines 62-63
    raises. *)
Lemma init_checks_missing (w : World) :
  NAME strategy = "" ∨ COMPATIBILITY strategy = [] →
  init_checks strategy w = (Raise (NotImplementedError missing_descriptor), w).
Proof.
  intros Hmiss. unfold init_checks, mbind, M_bind, get_self, raise.
  assert (str_falsy (NAME strategy) || list_falsy (COMPATIBILITY strategy)
          = true) as ->; [|done].
  destruct Hmiss as [-> | ->]; [done|]. apply orb_true_r.
Qed.

End Construction.

(** C8: when the derivation of the two kornia transforms raises, whatever
    the exception, the [try] statement completes with both attributes
    assigned [None] (before the statement neither attribute exists) and the
    warning printed, and the constructor goes on: its outcome is that of
    the later steps, and when these return, construction completes with
    both attributes still assigned [None] and the warning among the printed
    lines. *)
Theorem init_survives_kornia_failure `{Collaborators}
    (strategy : Strategy) (backbone : option Backbone) (loss0 : Loss)
    (args0 : Namespace) (transform0 : Transform) (st : StrategyState)
    (tr : list event) (ds : Dataset.t) (e : exn) (w1 : World) :
  get_dataset args0 = Ok ds →
  let s0 := init_fields backbone loss0 args0 transform0 ds in
  derive_kornia (mkWorld s0 st tr) = (Raise e, w1) →
  let w2 :=
    mkWorld (set_normalization_transform None (set_weak_transform None s0))
      st (tr ++ [Print kornia_warning]) in
  weak_transform s0 = Unassigned ∧
  normalization_transform s0 = Unassigned ∧
  init_kornia (mkWorld s0 st tr) = (Ok tt, w2) ∧
  weak_transform (self w2) = Assigned None ∧
  normalization_transform (self w2) = Assigned None ∧
  ∀ r w3,
    init_after_kornia strategy w2 = (r, w3) →
    __init__ strategy backbone loss0 args0 transform0 st tr
    = (match r with Ok _ => Ok w3 | Raise e' => Raise e' end, trace w3) ∧
    weak_transform (self w3) = Assigned None ∧
    normalization_transform (self w3) = Assigned None ∧
    Print kornia_warning ∈ trace w3.
Proof.
  intros Hds s0 Hfail w2.
  pose proof (init_kornia_recovers _ _ _ Hfail) as Hk.
  split_and!; [done|done|exact Hk|done|done|].
  intros r w3 Hrest.
  destruct (init_after_kornia_frame strategy w2 w3 r Hrest)
    as (Hweak & Hnorm & more & Htr).
  split_and!.
  - rewrite (init_cut_after_kornia strategy _ _ _ _ _ _ ds Hds).
    fold s0. rewrite Hk.
    change (mkWorld _ _ _) with w2. rewrite Hrest. by destruct r as [[]|e'].
  - by rewrite Hweak.
  - by rewrite Hnorm.
  - rewrite Htr. simpl. rewrite !elem_of_app. left. right.
    by apply list_elem_of_singleton.
Qed.

Lemma init_survives_kornia_failure_witness :
  ∃ w3,
    __init__ (lab_strategy ["class-il"]) (Some tt) tt lab_args
      (Stage "ToTensor") 0%nat []
    = (Ok w3, trace w3) ∧
    weak_transform (self w3) = Assigned None ∧
    normalization_transform (self w3) = Assigned None ∧
    Print kornia_warning ∈ trace w3.
Proof.
  edestruct (init_survives_kornia_failure (lab_strategy ["class-il"])
               (Some tt) tt lab_args (Stage "ToTensor") 0%nat []
               ds_uneven AttributeError)
    as (_ & _ & _ & _ & _ & Hrest); [reflexivity | reflexivity |].
  eexists. apply (Hrest (Ok tt)). vm_compute. reflexivity.
Defined.

(** C4, as the code has it: with an empty name, or with a name and no
    compatibility tag, construction never completes; it ends with the
    [NotImplementedError] of line 63 whenever the steps before that line
    (the dataset lookup, the kornia transforms, the optimizer, the
    device) have returned, and otherwise with the exception of the step
    that has raised. *)
Theorem init_rejects_missing_descriptor `{Collaborators}
    (strategy : Strategy) (backbone : option Backbone) (loss0 : Loss)
    (args0 : Namespace) (transform0 : Transform) (st : StrategyState)
    (tr : list event) :
  NAME strategy = "" ∨ COMPATIBILITY strategy = [] →
  ¬ is_Ok (__init__ strategy backbone loss0 args0 transform0 st tr).1 ∧
  (∀ ds w1,
     get_dataset args0 = Ok ds →
     init_before_checks
       (mkWorld (init_fields backbone loss0 args0 transform0 ds) st tr)
     = (Ok tt, w1) →
     __init__ strategy backbone loss0 args0 transform0 st tr
     = (Raise (NotImplementedError missing_descriptor), trace w1)) ∧
  (∀ e,
     get_dataset args0 = Raise e →
     __init__ strategy backbone loss0 args0 transform0 st tr
     = (Raise e, tr)) ∧
  (∀ ds e w1,
     get_dataset args0 = Ok ds →
     init_before_checks
       (mkWorld (init_fields backbone loss0 args0 transform0 ds) st tr)
     = (Raise e, w1) →
     __init__ strategy backbone loss0 args0 transform0 st tr
     = (Raise e, trace w1)).
Proof.
  intros Hmiss. split_and!.
  - intros [w Hw]. revert Hw.
    destruct (get_dataset args0) as [ds|e] eqn:Hds;
      [|unfold __init__; by rewrite Hds].
    rewrite (init_cut_before_checks strategy _ _ _ _ _ _ ds Hds).
    destruct (init_before_checks _) as [[[]|e] w1]; [|done].
    by rewrite (init_checks_missing strategy w1 Hmiss).
  - intros ds w1 Hds Hpre.
    rewrite (init_cut_before_checks strategy _ _ _ _ _ _ ds Hds), Hpre.
    by rewrite (init_checks_missing strategy w1 Hmiss).
  - intros e Hds. unfold __init__. by rewrite Hds.
  - intros ds e w1 Hds Hpre.
    by rewrite (init_cut_before_checks strategy _ _ _ _ _ _ ds Hds), Hpre.
Qed.

Lemma init_rejects_missing_descriptor_witness :
  (__init__ (lab_strategy []) (Some tt) tt lab_args lab_pipeline 0%nat []).1
  = Raise (NotImplementedError missing_descriptor).
Proof.
  edestruct (init_rejects_missing_descriptor (lab_strategy [])
               (Some tt) tt lab_args lab_pipeline 0%nat [])
    as (_ & Hraise & _); [by right|].
  erewrite (Hraise ds_uneven); [reflexivity|reflexivity|].
  vm_compute. reflexivity.
Defined.

(** C4, as it is stated, fails when an earlier step of the constructor
    fails: with an empty name and an optimizer that [dir(optim)] does not
    list, construction ends with the [ValueError] of line 83. *)
Lemma init_unknown_optimizer_comes_first :
  NAME (inherit_all (collab := lab) "" ["class-il"]) = "" ∧
  (__init__ (inherit_all (collab := lab) "" ["class-il"]) (Some tt) tt
     (lab_args_with "adam" 1000 false false) lab_pipeline 0%nat []).1
  = Raise (ValueError "Unknown optimizer: adam") ∧
  (__init__ (inherit_all (collab := lab) "" ["class-il"]) (Some tt) tt
     (lab_args_with "adam" 1000 false false) lab_pipeline 0%nat []).1
  ≠ Raise (NotImplementedError missing_descriptor).
Proof.
  split_and!; [reflexivity|vm_compute; reflexivity|].
  vm_compute. discriminate.
Qed.

(** ** Class offsets *)

Section Offsets.

Context {collab : Collaborators} (strategy : Strategy).

(** What [_compute_offsets] gives, and that it only reads. *)
Lemma compute_offsets_run (task : Z) (w : World) :
  _compute_offsets task w
  = if N_TASKS (self w) =? 0 then (Raise ZeroDivisionError, w)
    else (Ok (task * (N_CLASSES (self w) / N_TASKS (self w)),
              (task + 1) * (N_CLASSES (self w) / N_TASKS (self w))), w).
Proof.
  unfold _compute_offsets, mbind, M_bind, get_self, raise, mret, M_ret.
  by destruct (N_TASKS (self w) =? 0).
Qed.

End Offsets.

(** The class ranges of consecutive tasks follow one another and have the
    same width: where the range of [task] ends, the range of [task + 1]
    begins.  [_compute_offsets] changes nothing in the controller. *)
Theorem compute_offsets_contiguous `{Collaborators} (task : Z)
    (w w1 w2 : World) (a b a' b' : Z) :
  _compute_offsets task w = (Ok (a, b), w1) →
  _compute_offsets (task + 1) w = (Ok (a', b'), w2) →
  b = a' ∧ b - a = b' - a' ∧ w1 = w ∧ w2 = w.
Proof.
  rewrite !compute_offsets_run.
  destruct (N_TASKS (self w) =? 0); [done|].
  intros ? ?; simplify_eq. split_and!; [done|lia|done..].
Qed.

Lemma compute_offsets_contiguous_witness :
  ∃ a b a' b',
    _compute_offsets 1 lab_world = (Ok (a, b), lab_world) ∧
    _compute_offsets 2 lab_world = (Ok (a', b'), lab_world) ∧
    b = a' ∧ b - a = b' - a'.
Proof.
  exists 3, 6, 6, 9. split; [reflexivity|]. split; [reflexivity|].
  destruct (compute_offsets_contiguous 1 lab_world lab_world lab_world
              3 6 6 9 eq_refl eq_refl) as (Hb & Hw & _).
  by split.
Defined.

(** With a positive number of tasks, a non-negative number of classes and
    a task index below the number of tasks, [_compute_offsets] returns a
    range inside [0, N_CLASSES]. *)
Theorem compute_offsets_within_classes `{Collaborators} (task : Z)
    (w : World) :
  0 < N_TASKS (self w) → 0 ≤ N_CLASSES (self w) →
  0 ≤ task < N_TASKS (self w) →
  ∃ a b, _compute_offsets task w = (Ok (a, b), w) ∧
         0 ≤ a ≤ b ∧ b ≤ N_CLASSES (self w).
Proof.
  intros Ht Hc Hr. rewrite compute_offsets_run.
  destruct (Z.eqb_spec (N_TASKS (self w)) 0) as [Hz|_]; [lia|].
  eexists _, _. split; [reflexivity|].
  pose proof (Z.div_pos _ _ Hc Ht) as Hq.
  pose proof (Z.mul_div_le (N_CLASSES (self w)) _ Ht) as Hle.
  nia.
Qed.

Lemma compute_offsets_within_classes_witness :
  ∃ a b, _compute_offsets 2 lab_world = (Ok (a, b), lab_world) ∧
         0 ≤ a ≤ b ∧ b ≤ 10.
Proof.
  apply (compute_offsets_within_classes 2 lab_world); simpl; lia.
Defined.

(** For a dataset whose classes split evenly, [N_CLASSES = c * N_TASKS]
    with [c] classes per task, the range that [_compute_offsets] gives for
    the current task is the pair of the past and the seen classes that
    [meta_begin_task] has stored. *)
Theorem compute_offsets_agree_with_progress `{Collaborators}
    (strategy : Strategy) (ds : Dataset.t) (w : World) (c : Z) :
  cpt (self w) = CptInt c →
  N_TASKS (self w) ≠ 0 →
  N_CLASSES (self w) = c * N_TASKS (self w) →
  let w' := (meta_begin_task strategy ds w).2 in
  ∃ a b, _compute_offsets (current_task (self w)) w' = (Ok (a, b), w') ∧
         n_past_classes (self w') = Some a ∧
         n_seen_classes (self w') = Some b.
Proof.
  intros Hc Ht Hn. cbv zeta.
  assert (task_in_range (self w)) as Hr by (unfold task_in_range; by rewrite Hc).
  pose proof (meta_begin_task_fields strategy ds w Hr) as Hf.
  cbv zeta in Hf. rewrite Hc in Hf. destruct Hf as (_ & Hseen & _ & Hpast).
  rewrite compute_offsets_run.
  assert (N_TASKS (self (meta_begin_task strategy ds w).2)
          = N_TASKS (self w)) as HT.
  { destruct w as [s st tr].
    destruct s as [? ? ? ? ? ? ? ? k t ? ? ? ? ? ? ? ? ?].
    unfold meta_begin_task, mbind, M_bind, call_hook, lift, getattr; simpl.
    destruct k as [c'|l]; simpl.
    - by destruct (begin_task strategy ds _ st) as [[[]|e] st'].
    - destruct (py_getitem l t); simpl; [|done].
      by destruct (begin_task strategy ds _ st) as [[[]|e] st']. }
  rewrite HT, (meta_begin_task_N_CLASSES strategy ds w).
  destruct (Z.eqb_spec (N_TASKS (self w)) 0) as [Hz|_]; [done|].
  eexists _, _. split; [reflexivity|].
  rewrite Hn, Z.div_mul by done. rewrite Hseen, Hpast.
  split; f_equal; lia.
Qed.

Lemma compute_offsets_agree_with_progress_witness :
  let w := mkWorld (init_fields (collab := lab) (Some tt) tt lab_args
                      lab_pipeline ds_even) 0%nat [] in
  let w' := (meta_begin_task (lab_strategy ["class-il"]) ds_even w).2 in
  ∃ a b, _compute_offsets 0 w' = (Ok (a, b), w') ∧
         n_past_classes (self w') = Some a ∧
         n_seen_classes (self w') = Some b.
Proof.
  apply (compute_offsets_agree_with_progress (lab_strategy ["class-il"])
           ds_even
           (mkWorld (init_fields (collab := lab) (Some tt) tt lab_args
                       lab_pipeline ds_even) 0%nat []) 2);
    [reflexivity| simpl; lia | reflexivity].
Defined.

(** ** The task counter over a run *)

Section Lifecycle.

Context {collab : Collaborators} (strategy : Strategy).

Lemma meta_end_task_same_run (ds : Dataset.t) (w : World) :
  same_run (self w) (self (meta_end_task strategy ds w).2).
Proof.
  destruct w as [s st tr]. destruct s.
  unfold meta_end_task, mbind, M_bind, call_hook; simpl.
  by destruct (end_task strategy ds _ st) as [[[]|e] st'].
Qed.

Lemma meta_begin_task_same_run (ds : Dataset.t) (w : World) :
  same_run (self w) (self (meta_begin_task strategy ds w).2).
Proof.
  destruct w as [s st tr].
  destruct s as [? ? ? ? ? ? ? ? k t ? ? ? ? ? ? ? ? ?].
  unfold meta_begin_task, mbind, M_bind, call_hook, lift, getattr; simpl.
  destruct k as [c|l]; simpl.
  - by destruct (begin_task strategy ds _ st) as [[[]|e] st'].
  - destruct (py_getitem l t); simpl; [|done].
    by destruct (begin_task strategy ds _ st) as [[[]|e] st'].
Qed.

(** [meta_observe] assigns no attribute of the controller. *)
Lemma meta_observe_self posargs kwargs (w : World) :
  self (meta_observe strategy posargs kwargs w).2 = self w.
Proof.
  destruct (after_drop strategy posargs) as [posargs'|e] eqn:Hd.
  - rewrite (meta_observe_run strategy posargs kwargs w posargs' Hd).
    cbv zeta.
    destruct (observe strategy posargs' kwargs (self w) (strat w))
      as [[out|e] st']; [|done].
    by destruct (wandb_imported && negb (nowand (args (self w)))
                 && negb (debug_mode (args (self w)))).
  - by rewrite (meta_observe_drop_raises strategy posargs kwargs w e Hd).
Qed.

Lemma load_buffer_same_run (b : Buffer) (w : World) :
  same_run (self w) (self (load_buffer b w).2) ∧
  current_task (self (load_buffer b w).2) = current_task (self w).
Proof.
  unfold load_buffer, mbind, M_bind, lift, get_self, modify_self, raise.
  cbn [self strat trace].
  destruct (shape0 (examples b)) as [n|e]; [|done].
  destruct (n =? buffer_size (args (self w))); [|done].
  cbn [snd self]. by destruct (self w).
Qed.

Lemma get_optimizer_state (w : World) : (get_optimizer w).2 = w.
Proof.
  unfold get_optimizer, mbind, M_bind, lift, get_self, raise, mret, M_ret.
  destruct (supported_optims !! lower (optimizer (args (self w)))); [|done].
  destruct (net (self w)); [|done].
  by destruct (optim_call _ _ _ _ _).
Qed.

Lemma run_call_current_task (c : call) (w : World) :
  current_task (self (run_call strategy c w).2)
  = current_task (self w) + ended_tasks [c] ∧
  same_run (self w) (self (run_call strategy c w).2).
Proof.
  destruct c as [ds|ds|posargs kwargs|b| |task]; cbn [run_call ended_tasks].
  - destruct (meta_begin_task_current_task strategy ds w) as [-> _].
    split; [lia|apply meta_begin_task_same_run].
  - rewrite meta_end_task_current_task.
    split; [lia|apply meta_end_task_same_run].
  - assert (self ((meta_observe strategy posargs kwargs;; mret ()) w).2
            = self w) as ->; [|split; [lia|done]].
    unfold mbind, M_bind, mret, M_ret.
    pose proof (meta_observe_self posargs kwargs w) as Hs.
    by destruct (meta_observe strategy posargs kwargs w) as [[?|?] ?].
  - destruct (load_buffer_same_run b w) as [Hr ->]. split; [lia|done].
  - assert (((get_optimizer;; mret ()) w).2 = w) as ->; [|split; [lia|done]].
    unfold mbind, M_bind, mret, M_ret.
    pose proof (get_optimizer_state w) as Hs.
    by destruct (get_optimizer w) as [[?|?] ?].
  - assert (((_compute_offsets task;; mret ()) w).2 = w) as ->;
      [|split; [lia|done]].
    unfold mbind, M_bind, mret, M_ret. rewrite compute_offsets_run.
    by destruct (N_TASKS (self w) =? 0).
Qed.

End Lifecycle.

(** Whatever a training loop calls on a controller, in whatever order, and
    whether the calls return or raise, the task counter has advanced by
    the number of [meta_end_task] calls, and the class counts, the task
    count, the arguments and the backbone are those of the start. *)
Theorem run_calls_count_ended_tasks `{Collaborators}
    (strategy : Strategy) (cs : list call) (w : World) :
  let w' := run_calls strategy cs w in
  current_task (self w') = current_task (self w) + ended_tasks cs ∧
  cpt (self w') = cpt (self w) ∧
  N_CLASSES (self w') = N_CLASSES (self w) ∧
  N_TASKS (self w') = N_TASKS (self w) ∧
  args (self w') = args (self w) ∧
  net (self w') = net (self w).
Proof.
  cbv zeta. revert w. induction cs as [|c cs IH]; intros w.
  - cbn. split_and!; [lia|done..].
  - cbn [run_calls].
    destruct (IH (run_call strategy c w).2) as (-> & -> & -> & -> & -> & ->).
    destruct (run_call_current_task strategy c w)
      as (-> & -> & -> & -> & -> & ->).
    split_and!; try done.
    cbn [ended_tasks]. destruct c; lia.
Qed.

(** From its construction on, a controller is on the task whose index is
    the number of [meta_end_task] calls made so far; the index is never
    negative. *)
Theorem constructed_controller_task_index `{Collaborators}
    (strategy : Strategy) (backbone : option Backbone) (loss0 : Loss)
    (args0 : Namespace) (transform0 : Transform) (st : StrategyState)
    (tr tr' : list event) (w : World) (cs : list call) :
  __init__ strategy backbone loss0 args0 transform0 st tr = (Ok w, tr') →
  current_task (self (run_calls strategy cs w)) = ended_tasks cs ∧
  0 ≤ current_task (self (run_calls strategy cs w)).
Proof.
  intros Hinit.
  pose proof (init_current_task strategy _ _ _ _ _ _ _ _ Hinit) as H0.
  assert (current_task (self (run_calls strategy cs w)) = ended_tasks cs)
    as ->.
  { assert (∀ w0, current_task (self (run_calls strategy cs w0))
                  = current_task (self w0) + ended_tasks cs) as Hc.
    { induction cs as [|c cs IH]; intros w0; [cbn; lia|].
      cbn [run_calls]. rewrite IH.
      destruct (run_call_current_task strategy c w0) as [-> _].
      cbn [ended_tasks]. destruct c; lia. }
    rewrite Hc, H0. lia. }
  split; [done|].
  induction cs as [|c cs IH]; [done|]. cbn [ended_tasks]. destruct c; lia.
Qed.

Lemma constructed_controller_task_index_witness :
  ∃ w tr',
    __init__ (lab_strategy ["class-il"]) (Some tt) tt lab_args lab_pipeline
      0%nat [] = (Ok w, tr') ∧
    current_task
      (self (run_calls (lab_strategy ["class-il"])
               [CallBeginTask ds_uneven; CallObserve lab_batch ∅;
                CallEndTask ds_uneven; CallBeginTask ds_uneven] w)) = 1.
Proof.
  eexists _, _. split; [vm_compute; reflexivity|].
  refine (proj1 (constructed_controller_task_index
                   (lab_strategy ["class-il"]) (Some tt) tt lab_args
                   lab_pipeline 0%nat [] _ _
                   [CallBeginTask ds_uneven; CallObserve lab_batch ∅;
                    CallEndTask ds_uneven; CallBeginTask ds_uneven] _)).
  vm_compute. reflexivity.
Defined.

(** ** Progress from one task to the next *)

Section NextTask.

Context {collab : Collaborators} (strategy : Strategy).

Lemma prefix_sum_nonneg (l : list Z) (n : nat) :
  Forall (λ c, 0 ≤ c) l → 0 ≤ prefix_sum l n.
Proof.
  intros Hl. induction n as [|n IH]; [done|]. simpl.
  destruct (l !! n) as [c|] eqn:Hc; simpl; [|lia].
  pose proof (Forall_lookup_1 _ _ _ _ Hl Hc). simpl in *. lia.
Qed.

Lemma prefix_sum_mono (l : list Z) (n m : nat) :
  Forall (λ c, 0 ≤ c) l → (n ≤ m)%nat → prefix_sum l n ≤ prefix_sum l m.
Proof.
  intros Hl. induction 1 as [|m Hle IH]; [done|]. simpl.
  destruct (l !! m) as [c|] eqn:Hc; simpl; [|lia].
  pose proof (Forall_lookup_1 _ _ _ _ Hl Hc). simpl in *. lia.
Qed.

(** The state in which the next task begins. *)
Lemma next_task_in_range (ds : Dataset.t) (w : World) :
  let w1 := (meta_begin_task strategy ds w).2 in
  let w2 := (meta_end_task strategy ds w1).2 in
  current_task (self w2) = current_task (self w) + 1 ∧
  cpt (self w2) = cpt (self w) ∧
  N_CLASSES (self w2) = N_CLASSES (self w).
Proof.
  cbv zeta. rewrite meta_end_task_current_task.
  destruct (meta_end_task_same_run strategy ds
              (meta_begin_task strategy ds w).2) as (-> & -> & _).
  destruct (meta_begin_task_same_run strategy ds w) as (-> & -> & _).
  by destruct (meta_begin_task_current_task strategy ds w) as [-> _].
Qed.

End NextTask.

(** Going from one task to the next, by [meta_begin_task],
    [meta_end_task] and [meta_begin_task] again, the past classes of the
    new task are the classes seen up to the task before. *)
Theorem next_task_past_is_seen `{Collaborators}
    (strategy : Strategy) (ds : Dataset.t) (w : World) :
  let w1 := (meta_begin_task strategy ds w).2 in
  let w2 := (meta_end_task strategy ds w1).2 in
  let w3 := (meta_begin_task strategy ds w2).2 in
  task_in_range (self w) → task_in_range (self w2) →
  n_past_classes (self w3) = n_seen_classes (self w1).
Proof.
  cbv zeta. intros Hr Hr2.
  pose proof (meta_begin_task_fields strategy ds w Hr) as Hf.
  pose proof (meta_begin_task_fields strategy ds _ Hr2) as Hf2.
  destruct (next_task_in_range strategy ds w) as (Ht & Hc & _).
  cbv zeta in *. rewrite Hc, Ht in Hf2. unfold task_in_range in Hr, Hr2.
  rewrite Hc, Ht in Hr2.
  destruct (cpt (self w)) as [c|l].
  - destruct Hf as (_ & -> & _). destruct Hf2 as (_ & _ & _ & ->). done.
  - destruct Hf as (_ & -> & _). destruct Hf2 as (_ & _ & _ & ->).
    do 2 f_equal. lia.
Qed.

Lemma next_task_past_is_seen_witness :
  let w1 := (meta_begin_task (lab_strategy ["class-il"]) ds_uneven
               lab_world).2 in
  let w2 := (meta_end_task (lab_strategy ["class-il"]) ds_uneven w1).2 in
  let w3 := (meta_begin_task (lab_strategy ["class-il"]) ds_uneven w2).2 in
  n_past_classes (self w3) = Some 5 ∧ n_seen_classes (self w1) = Some 5.
Proof.
  split; [|reflexivity].
  refine (eq_trans (next_task_past_is_seen (lab_strategy ["class-il"])
                      ds_uneven lab_world _ _) _);
    [unfold task_in_range; simpl; lia..|reflexivity].
Defined.

(** For a dataset whose class counts are not negative and add up to
    [N_CLASSES], the classes that remain after [meta_begin_task] are never
    negative and never more than [N_CLASSES], and none remains on the last
    task. *)
Theorem remaining_classes_bounds `{Collaborators}
    (strategy : Strategy) (ds : Dataset.t) (w : World) (l : list Z) :
  cpt (self w) = CptSeq l →
  Forall (λ c, 0 ≤ c) l →
  prefix_sum l (length l) = N_CLASSES (self w) →
  0 ≤ current_task (self w) < Z.of_nat (length l) →
  let s' := self (meta_begin_task strategy ds w).2 in
  ∃ remaining,
    n_remaining_classes s' = Some remaining ∧
    0 ≤ remaining ≤ N_CLASSES (self w) ∧
    (current_task (self w) = Z.of_nat (length l) - 1 → remaining = 0).
Proof.
  intros Hc Hl Htot Hr. cbv zeta.
  assert (task_in_range (self w)) as Hin
    by (unfold task_in_range; by rewrite Hc).
  pose proof (meta_begin_task_fields strategy ds w Hin) as Hf.
  cbv zeta in Hf. rewrite Hc in Hf. destruct Hf as (_ & _ & -> & _).
  eexists. split; [reflexivity|].
  pose proof (prefix_sum_nonneg l (Z.to_nat (current_task (self w)) + 1) Hl).
  pose proof (prefix_sum_mono l (Z.to_nat (current_task (self w)) + 1)
                (length l) Hl ltac:(lia)).
  split; [lia|]. intros Hlast.
  replace (Z.to_nat (current_task (self w)) + 1)%nat with (length l) by lia.
  lia.
Qed.

Lemma remaining_classes_bounds_witness :
  ∃ remaining,
    n_remaining_classes
      (self (meta_begin_task (lab_strategy ["class-il"]) ds_uneven
               lab_world).2) = Some remaining ∧
    0 ≤ remaining ≤ 10.
Proof.
  destruct (remaining_classes_bounds (lab_strategy ["class-il"]) ds_uneven
              lab_world [2; 3; 5] eq_refl)
    as (r & Hr & Hb & _);
    [repeat constructor; lia | reflexivity | simpl; lia |].
  exists r. split; [exact Hr | exact Hb].
Defined.

(** ** More on the observation wrapper *)

Section MoreMetaObserve.

Context {collab : Collaborators} (strategy : Strategy).

Lemma after_drop_no_cssl (posargs : list pyval) :
  "cssl" ∉ COMPATIBILITY strategy →
  after_drop strategy posargs = drop_unlabeled posargs.
Proof.
  intros Hc. unfold after_drop, supports_cssl.
  by rewrite bool_decide_eq_false_2.
Qed.

(** [mapM] raises as soon as one element does. *)
Lemma mapM_result_Raise {A B} (f : A → result B) (l : list A) :
  Exists (λ x, ∃ e, f x = Raise e) l → ∃ e, mapM f l = Raise e.
Proof.
  induction 1 as [x l [e He]|x l _ [e IH]]; cbn.
  - rewrite He. by eexists.
  - destruct (f x); cbn; [|by eexists]. rewrite IH. by eexists.
Qed.

Lemma labeled_rows_all_labeled (ls : list Z) (rs : list tensor) :
  Forall (λ z, z ≠ -1) ls → length rs = length ls →
  labeled_rows ls rs = rs.
Proof.
  unfold labeled_rows. intros Hl. revert rs.
  induction Hl as [|z ls Hz _ IH]; intros [|r rs] Hlen; try done.
  cbn [zip zip_with]. rewrite filter_cons, decide_True by done.
  cbn. f_equal. apply IH. by injection Hlen.
Qed.

Lemma labeled_rows_none_labeled (ls : list Z) (rs : list tensor) :
  Forall (λ z, z = -1) ls → labeled_rows ls rs = [].
Proof.
  unfold labeled_rows. intros Hl. revert rs.
  induction Hl as [|z ls Hz _ IH]; intros [|r rs]; try done.
  cbn [zip zip_with]. rewrite filter_cons, decide_False by (cbn; lia).
  apply IH.
Qed.

Lemma labeled_rows_length (ls : list Z) (rs : list tensor) :
  length rs = length ls →
  length (labeled_rows ls rs) = length (filter (λ z, z ≠ -1) ls).
Proof.
  unfold labeled_rows. revert rs.
  induction ls as [|z ls IH]; intros [|r rs] Hlen; try done.
  specialize (IH rs ltac:(by injection Hlen)).
  cbn [zip zip_with]. rewrite !filter_cons. cbn [fst].
  destruct (decide (z ≠ -1)); cbn; by rewrite IH.
Qed.

Lemma labeled_rows_labels (ls : list Z) :
  labeled_rows ls ((λ z, Item (NInt z)) <$> ls)
  = (λ z, Item (NInt z)) <$> filter (λ z, z ≠ -1) ls.
Proof.
  unfold labeled_rows. induction ls as [|z ls IH]; [done|].
  cbn [fmap list_fmap zip zip_with]. rewrite !filter_cons. cbn [fst].
  destruct (decide (z ≠ -1)); cbn; by rewrite <- IH.
Qed.

End MoreMetaObserve.

(** [meta_observe] gives back what [observe] returns, raises what it
    raises, leaves the strategy in the state [observe] left it in, and
    assigns no attribute of the controller. *)
Theorem meta_observe_result `{Collaborators}
    (strategy : Strategy) (posargs posargs' : list pyval)
    (kwargs : gmap string pyval) (w : World)
    (r : result (pyval * locals)) (st' : StrategyState) :
  after_drop strategy posargs = Ok posargs' →
  observe strategy posargs' kwargs (self w) (strat w) = (r, st') →
  (meta_observe strategy posargs kwargs w).1
  = match r with Ok out => Ok out.1 | Raise e => Raise e end ∧
  self (meta_observe strategy posargs kwargs w).2 = self w ∧
  strat (meta_observe strategy posargs kwargs w).2 = st'.
Proof.
  intros Hd Hobs.
  rewrite (meta_observe_run strategy posargs kwargs w posargs' Hd).
  cbv zeta. rewrite Hobs. destruct r as [out|e]; [|done].
  by destruct (wandb_imported && negb (nowand (args (self w)))
               && negb (debug_mode (args (self w)))).
Qed.

Lemma meta_observe_result_witness :
  (meta_observe (lab_strategy ["class-il"]) lab_batch ∅
     (lab_world_with lab_args)).1 = Ok (VFloat 2.5) ∧
  strat (meta_observe (lab_strategy ["class-il"]) lab_batch ∅
           (lab_world_with lab_args)).2 = 1%nat.
Proof.
  destruct (meta_observe_result (lab_strategy ["class-il"]) lab_batch
              (keep_labeled lab_labels <$> lab_batch) ∅
              (lab_world_with lab_args)
              (lab_observe (keep_labeled lab_labels <$> lab_batch) ∅
                 (lab_self_with lab_args) 0%nat).1 1%nat)
    as (Hret & _ & Hst); [reflexivity | reflexivity |].
  split; [exact Hret | exact Hst].
Defined.

(** A strategy without [cssl] needs the labels as second positional
    argument: with fewer than two positional arguments [meta_observe]
    raises [IndexError] and nothing else happens, [observe] is not
    called. *)
Theorem meta_observe_too_few_arguments `{Collaborators}
    (strategy : Strategy) (posargs : list pyval)
    (kwargs : gmap string pyval) (w : World) :
  "cssl" ∉ COMPATIBILITY strategy →
  (length posargs < 2)%nat →
  meta_observe strategy posargs kwargs w = (Raise IndexError, w).
Proof.
  intros Hc Hlen. apply meta_observe_drop_raises.
  rewrite after_drop_no_cssl by done. unfold drop_unlabeled, py_getitem.
  cbn [Z.ltb Z.compare Z.leb andb].
  destruct (Z.ltb_spec 1 (Z.of_nat (length posargs))); [lia|done].
Qed.

Lemma meta_observe_too_few_arguments_witness :
  meta_observe (lab_strategy ["class-il"]) [VTensor (Rows lab_inputs)]
    lab_logits (lab_world_with lab_args)
  = (Raise IndexError, lab_world_with lab_args).
Proof.
  apply (meta_observe_too_few_arguments (lab_strategy ["class-il"])).
  - intros Hin. apply list_elem_of_singleton in Hin. discriminate.
  - simpl. lia.
Defined.

(** For a strategy without [cssl], a first argument whose number of rows
    differs from the number of labels makes [meta_observe] raise
    [IndexError] before [observe] is called. *)
Theorem meta_observe_label_count_mismatch `{Collaborators}
    (strategy : Strategy) (inputs : list tensor) (ls : list Z)
    (rest : list pyval) (kwargs : gmap string pyval) (w : World) :
  "cssl" ∉ COMPATIBILITY strategy →
  length inputs ≠ length ls →
  meta_observe strategy
    (VTensor (Rows inputs) :: VTensor (int_labels ls) :: rest) kwargs w
  = (Raise IndexError, w).
Proof.
  intros Hc Hlen. apply meta_observe_drop_raises.
  rewrite after_drop_no_cssl by done. unfold drop_unlabeled.
  set (posargs := VTensor (Rows inputs) :: VTensor (int_labels ls) :: rest).
  assert (py_getitem posargs 1 = Ok (VTensor (int_labels ls))) as ->.
  { destruct (py_getitem_in_range posargs 1) as (x & Hx & ->);
      [unfold posargs; cbn [length]; lia|].
    by injection Hx as <-. }
  assert (py_getitem posargs 0 = Ok (VTensor (Rows inputs))) as Hfirst.
  { destruct (py_getitem_in_range posargs 0) as (x & Hx & ->);
      [unfold posargs; cbn [length]; lia|].
    by injection Hx as <-. }
  assert (drop_in posargs (ne_m1 (VTensor (int_labels ls)))
            (VTensor (Rows inputs)) = Raise IndexError) as Hdrop.
  { unfold drop_in. rewrite Hfirst.
    cbn [mbind result_bind shape0 ne_m1]. rewrite Z.eqb_refl.
    unfold index_mask. by rewrite select_length_mismatch. }
  cbn [mbind result_bind]. unfold posargs at 2. cbn [mapM].
  by rewrite Hdrop.
Qed.

Lemma meta_observe_label_count_mismatch_witness :
  meta_observe (lab_strategy ["class-il"])
    [VTensor (Rows lab_inputs); VTensor (int_labels [4; -1])] ∅
    (lab_world_with lab_args)
  = (Raise IndexError, lab_world_with lab_args).
Proof.
  apply (meta_observe_label_count_mismatch (lab_strategy ["class-il"])
           lab_inputs [4; -1] []).
  - intros Hin. apply list_elem_of_singleton in Hin. discriminate.
  - simpl. lia.
Defined.

(** For a strategy without [cssl], a zero-dimensional tensor among the
    positional arguments makes [meta_observe] raise before [observe] is
    called: its shape has no first entry. *)
Theorem meta_observe_scalar_tensor_argument `{Collaborators}
    (strategy : Strategy) (posargs : list pyval) (x : number)
    (kwargs : gmap string pyval) (w : World) :
  "cssl" ∉ COMPATIBILITY strategy →
  VTensor (Item x) ∈ posargs →
  ∃ e, meta_observe strategy posargs kwargs w = (Raise e, w).
Proof.
  intros Hc Hin.
  assert (∃ e, after_drop strategy posargs = Raise e) as [e He];
    [|exists e; by apply meta_observe_drop_raises].
  rewrite after_drop_no_cssl by done. unfold drop_unlabeled.
  destruct (py_getitem posargs 1) as [labels|e]; [|by eexists].
  cbn [mbind result_bind]. apply mapM_result_Raise.
  apply Exists_exists. exists (VTensor (Item x)). split; [done|].
  by exists IndexError.
Qed.

Lemma meta_observe_scalar_tensor_argument_witness :
  ∃ e,
    meta_observe (lab_strategy ["class-il"])
      (lab_batch ++ [VTensor (Item (NFloat 0.5))]) ∅
      (lab_world_with lab_args)
    = (Raise e, lab_world_with lab_args).
Proof.
  apply (meta_observe_scalar_tensor_argument (lab_strategy ["class-il"])
           (lab_batch ++ [VTensor (Item (NFloat 0.5))]) (NFloat 0.5)).
  - intros Hin. apply list_elem_of_singleton in Hin. discriminate.
  - apply elem_of_app. right. by apply list_elem_of_singleton.
Defined.

(** For a strategy without [cssl], a batch with labels of a signed
    integer dtype in which every example is labeled reaches [observe] as
    it is. *)
Theorem meta_observe_all_labeled `{Collaborators}
    (strategy : Strategy) (inputs : list tensor) (ls : list Z)
    (rest : list pyval) (kwargs : gmap string pyval) (w : World) :
  "cssl" ∉ COMPATIBILITY strategy →
  length inputs = length ls →
  Forall (λ v, ∀ x, v ≠ VTensor (Item x)) rest →
  Forall (λ z, z ≠ -1) ls →
  let posargs := VTensor (Rows inputs) :: VTensor (int_labels ls) :: rest in
  observe_calls (trace (meta_observe strategy posargs kwargs w).2)
  = observe_calls (trace w) ++ [(posargs, kwargs)].
Proof.
  intros Hc Hlen Hrest Hl posargs.
  assert (after_drop strategy posargs = Ok posargs) as Hd.
  { rewrite after_drop_no_cssl by done. unfold posargs.
    rewrite drop_unlabeled_batch by done. f_equal.
    etrans; [|apply list_fmap_id]. apply list_fmap_ext. intros i v _.
    unfold id.
    destruct v as [| | | |[x|rs]]; try done. unfold keep_labeled.
    case_decide; [|done]. by rewrite labeled_rows_all_labeled. }
  rewrite (meta_observe_run strategy posargs kwargs w _ Hd). cbv zeta.
  destruct (observe strategy _ kwargs (self w) (strat w)) as [[out|e] st'].
  - destruct (wandb_imported && negb (nowand (args (self w)))
              && negb (debug_mode (args (self w)))); cbn [trace snd];
      rewrite !observe_calls_snoc; by rewrite ?app_nil_r.
  - cbn [trace snd]. by rewrite observe_calls_snoc.
Qed.

Lemma meta_observe_all_labeled_witness :
  observe_calls
    (trace (meta_observe (lab_strategy ["class-il"])
              [VTensor (Rows lab_inputs); VTensor (int_labels [4; 0; 7])]
              ∅ (lab_world_with lab_args)).2)
  = [([VTensor (Rows lab_inputs); VTensor (int_labels [4; 0; 7])], ∅)].
Proof.
  apply (meta_observe_all_labeled (lab_strategy ["class-il"]) lab_inputs
           [4; 0; 7] [] ∅ (lab_world_with lab_args)).
  - intros Hin. apply list_elem_of_singleton in Hin. discriminate.
  - reflexivity.
  - constructor.
  - repeat constructor; lia.
Defined.

Section BatchCall.

Context {collab : Collaborators} (strategy : Strategy).

(** The call of [observe] that a well-formed batch leads to. *)
Lemma meta_observe_batch_call (inputs : list tensor) (ls : list Z)
    (rest : list pyval) (kwargs : gmap string pyval) (w : World) :
  "cssl" ∉ COMPATIBILITY strategy →
  length inputs = length ls →
  Forall (λ v, ∀ x, v ≠ VTensor (Item x)) rest →
  observe_calls
    (trace (meta_observe strategy
              (VTensor (Rows inputs) :: VTensor (int_labels ls) :: rest)
              kwargs w).2)
  = observe_calls (trace w)
    ++ [(VTensor (Rows (labeled_rows ls inputs))
         :: VTensor (int_labels (filter (λ z, z ≠ -1) ls))
         :: (keep_labeled ls <$> rest), kwargs)].
Proof.
  intros Hc Hlen Hrest.
  set (posargs := VTensor (Rows inputs) :: VTensor (int_labels ls) :: rest).
  assert (after_drop strategy posargs
          = Ok (VTensor (Rows (labeled_rows ls inputs))
                :: VTensor (int_labels (filter (λ z, z ≠ -1) ls))
                :: (keep_labeled ls <$> rest))) as Hd.
  { rewrite after_drop_no_cssl by done. unfold posargs.
    rewrite drop_unlabeled_batch by done. cbn [fmap list_fmap].
    do 2 f_equal.
    - unfold keep_labeled. by rewrite decide_True.
    - f_equal. unfold keep_labeled, int_labels.
      rewrite decide_True by by rewrite length_fmap.
      by rewrite labeled_rows_labels. }
  rewrite (meta_observe_run strategy posargs kwargs w _ Hd). cbv zeta.
  destruct (observe strategy _ kwargs (self w) (strat w)) as [[out|e] st'].
  - destruct (wandb_imported && negb (nowand (args (self w)))
              && negb (debug_mode (args (self w)))); cbn [trace snd];
      rewrite !observe_calls_snoc; by rewrite ?app_nil_r.
  - cbn [trace snd]. by rewrite observe_calls_snoc.
Qed.

End BatchCall.

(** For a strategy without [cssl] and a well-formed batch with labels of
    a signed integer dtype, the labels that [observe] receives are the
    labels of the batch without the sentinels -1, in order, the first
    argument has as many rows as there are such labels, and no positional
    argument is lost. *)
Theorem meta_observe_hides_sentinel `{Collaborators}
    (strategy : Strategy) (inputs : list tensor) (ls : list Z)
    (rest : list pyval) (kwargs : gmap string pyval) (w : World) :
  "cssl" ∉ COMPATIBILITY strategy →
  length inputs = length ls →
  Forall (λ v, ∀ x, v ≠ VTensor (Item x)) rest →
  ∃ inputs' rest',
    observe_calls
      (trace (meta_observe strategy
                (VTensor (Rows inputs) :: VTensor (int_labels ls) :: rest)
                kwargs w).2)
    = observe_calls (trace w)
      ++ [(VTensor (Rows inputs')
           :: VTensor (int_labels (filter (λ z, z ≠ -1) ls)) :: rest',
           kwargs)] ∧
    length inputs' = length (filter (λ z, z ≠ -1) ls) ∧
    length rest' = length rest.
Proof.
  intros Hc Hlen Hrest.
  exists (labeled_rows ls inputs), (keep_labeled ls <$> rest).
  split_and!.
  - by apply meta_observe_batch_call.
  - by apply labeled_rows_length.
  - by rewrite length_fmap.
Qed.

Lemma meta_observe_hides_sentinel_witness :
  ∃ inputs' rest',
    observe_calls
      (trace (meta_observe (lab_strategy ["class-il"]) lab_batch ∅
                (lab_world_with lab_args)).2)
    = [(VTensor (Rows inputs') :: VTensor (int_labels [4; 7]) :: rest', ∅)] ∧
    length inputs' = 2%nat.
Proof.
  destruct (meta_observe_hides_sentinel (lab_strategy ["class-il"])
              lab_inputs lab_labels [VTensor (Rows lab_inputs); VInt 3] ∅
              (lab_world_with lab_args))
    as (inputs' & rest' & Hcall & Hlen & _).
  - intros Hin. apply list_elem_of_singleton in Hin. discriminate.
  - reflexivity.
  - repeat constructor; intros x Hx; discriminate.
  - exists inputs', rest'. split; [exact Hcall | exact Hlen].
Defined.

Section UnsignedLabels.

Context {collab : Collaborators}.

(** The mask of a [uint8] label tensor is that of its labels as the
    comparison reads them. *)
Lemma uint8_labels_mask (ls : list Z) :
  tensor_ne_m1 (uint8_labels ls)
  = tensor_ne_m1 (int_labels (uint8_as_label <$> ls)).
Proof.
  unfold uint8_labels, int_labels. cbn [tensor_ne_m1]. f_equal.
  induction ls as [|z ls IH]; [done|].
  cbn [fmap list_fmap map] in *. rewrite IH. f_equal.
  cbn [tensor_ne_m1 number_ne_m1]. unfold uint8_as_label.
  change ((-1) `mod` 2 ^ 8) with 255. change (2 ^ 8) with 256.
  destruct (Z.eqb_spec (z `mod` 256) 255) as [Heq|Hne]; [done|].
  destruct (Z.eqb_spec z (-1)) as [->|?]; [|done].
  by destruct Hne.
Qed.

(** Lines 117-118 on a batch whose first argument has one row per label,
    for a label tensor of any dtype whose mask is that of [ls]. *)
Lemma drop_unlabeled_mask (inputs lab : list tensor) (ls : list Z)
    (rest : list pyval) :
  length inputs = length ls →
  length lab = length ls →
  tensor_ne_m1 (Rows lab) = tensor_ne_m1 (int_labels ls) →
  Forall (λ v, ∀ x, v ≠ VTensor (Item x)) rest →
  let posargs := VTensor (Rows inputs) :: VTensor (Rows lab) :: rest in
  drop_unlabeled posargs = Ok (keep_labeled ls <$> posargs).
Proof.
  intros Hlen Hlab Hmask Hrest posargs. unfold drop_unlabeled.
  assert (py_getitem posargs 1 = Ok (VTensor (Rows lab))) as ->.
  { destruct (py_getitem_in_range posargs 1) as (x & Hx & ->);
      [unfold posargs; cbn [length]; lia|].
    by injection Hx as <-. }
  assert (py_getitem posargs 0 = Ok (VTensor (Rows inputs))) as Hfirst.
  { destruct (py_getitem_in_range posargs 0) as (x & Hx & ->);
      [unfold posargs; cbn [length]; lia|].
    by injection Hx as <-. }
  cbn [mbind result_bind]. apply mapM_result_Ok.
  assert (∀ rs, drop_in posargs (ne_m1 (VTensor (Rows lab)))
                  (VTensor (Rows rs))
                = Ok (keep_labeled ls (VTensor (Rows rs)))) as Hrows.
  { intros rs. unfold drop_in.
    rewrite Hfirst. unfold ne_m1. rewrite Hmask.
    cbn [mbind result_bind shape0 keep_labeled index_mask].
    rewrite Hlen.
    destruct (Z.eqb_spec (Z.of_nat (length rs)) (Z.of_nat (length ls)))
      as [Heq|Hne].
    - apply Nat2Z.inj in Heq. rewrite decide_True by done.
      unfold index_mask. by rewrite select_int_labels.
    - rewrite decide_False; [done|]. intros Heq. by rewrite Heq in Hne. }
  repeat apply Forall_cons_2.
  - apply Hrows.
  - apply Hrows.
  - eapply Forall_impl; [exact Hrest|]. intros v Hv.
    destruct v as [| | | |[x|rs]]; [done..| |apply Hrows].
    by destruct (Hv x).
Qed.

End UnsignedLabels.

(** For a strategy without [cssl] and a batch whose labels are a [uint8]
    tensor, the comparison with -1 is made in that dtype, where -1 is
    255: [observe] is called on the positional arguments in which every
    tensor with one row per label has lost the rows labelled 255, the
    label tensor included, and a label -1 cannot occur. *)
Theorem meta_observe_uint8_sentinel `{Collaborators}
    (strategy : Strategy) (inputs : list tensor) (ls : list Z)
    (rest : list pyval) (kwargs : gmap string pyval) (w : World) :
  "cssl" ∉ COMPATIBILITY strategy →
  length inputs = length ls →
  Forall (λ v, ∀ x, v ≠ VTensor (Item x)) rest →
  let posargs := VTensor (Rows inputs) :: VTensor (uint8_labels ls) :: rest in
  let read := uint8_as_label <$> ls in
  observe_calls (trace (meta_observe strategy posargs kwargs w).2)
  = observe_calls (trace w) ++ [(keep_labeled read <$> posargs, kwargs)] ∧
  ∀ i z, ls !! i = Some z →
         (i ∈ labeled_positions read ↔ z `mod` 256 ≠ 255).
Proof.
  intros Hc Hlen Hrest posargs read. split.
  - assert (after_drop strategy posargs = Ok (keep_labeled read <$> posargs))
      as Hd.
    { rewrite after_drop_no_cssl by done. unfold posargs, uint8_labels.
      apply drop_unlabeled_mask;
        [by unfold read; rewrite length_fmap
        |by unfold read; rewrite !length_fmap
        |apply uint8_labels_mask
        |done]. }
    rewrite (meta_observe_run strategy posargs kwargs w _ Hd). cbv zeta.
    destruct (observe strategy _ kwargs (self w) (strat w))
      as [[out|e] st'].
    + destruct (wandb_imported && negb (nowand (args (self w)))
                && negb (debug_mode (args (self w)))); cbn [trace snd];
        rewrite !observe_calls_snoc; by rewrite ?app_nil_r.
    + cbn [trace snd]. by rewrite observe_calls_snoc.
  - intros i z Hi. unfold labeled_positions, read.
    rewrite list_elem_of_filter, elem_of_seq, length_fmap, list_lookup_fmap,
      Hi.
    cbn [fmap option_fmap option_map]. unfold uint8_as_label.
    pose proof (lookup_lt_Some _ _ _ Hi) as Hlt.
    destruct (Z.eqb_spec (z `mod` 256) 255) as [Heq|Hne].
    + split; [by intros [? _]|done].
    + split; [done|]. intros _. split; [|lia].
      intros ?; simplify_eq.
Qed.

Lemma meta_observe_uint8_sentinel_witness :
  observe_calls
    (trace (meta_observe (lab_strategy ["class-il"])
              [VTensor (Rows lab_inputs); VTensor (uint8_labels [255; 3; 255]);
               VInt 3]
              ∅ (lab_world_with lab_args)).2)
  = [([VTensor (Rows [image 20]); VTensor (uint8_labels [3]); VInt 3], ∅)].
Proof.
  refine (proj1 (meta_observe_uint8_sentinel (lab_strategy ["class-il"])
                   lab_inputs [255; 3; 255] [VInt 3] ∅
                   (lab_world_with lab_args) _ eq_refl _)).
  - intros Hin. apply list_elem_of_singleton in Hin. discriminate.
  - repeat constructor; intros x Hx; discriminate.
Defined.

(** For a strategy without [cssl], a batch in which no example is labeled
    still reaches [observe]: with an empty first argument and empty
    labels. *)
Theorem meta_observe_all_unlabeled `{Collaborators}
    (strategy : Strategy) (inputs : list tensor) (ls : list Z)
    (rest : list pyval) (kwargs : gmap string pyval) (w : World) :
  "cssl" ∉ COMPATIBILITY strategy →
  length inputs = length ls →
  Forall (λ v, ∀ x, v ≠ VTensor (Item x)) rest →
  Forall (λ z, z = -1) ls →
  observe_calls
    (trace (meta_observe strategy
              (VTensor (Rows inputs) :: VTensor (int_labels ls) :: rest)
              kwargs w).2)
  = observe_calls (trace w)
    ++ [(VTensor (Rows []) :: VTensor (Rows [])
         :: (keep_labeled ls <$> rest), kwargs)].
Proof.
  intros Hc Hlen Hrest Hall.
  rewrite meta_observe_batch_call by done.
  rewrite labeled_rows_none_labeled by done.
  assert (filter (λ z, z ≠ -1) ls = []) as Hnone.
  { clear Hlen. induction Hall as [|z ls Hz _ IH]; [done|].
    rewrite filter_cons. rewrite decide_False; [exact IH|]. cbn. lia. }
  by rewrite Hnone.
Qed.

Lemma meta_observe_all_unlabeled_witness :
  observe_calls
    (trace (meta_observe (lab_strategy ["class-il"])
              [VTensor (Rows lab_inputs); VTensor (int_labels [-1; -1; -1]);
               VTensor (Rows lab_inputs)] ∅ (lab_world_with lab_args)).2)
  = [([VTensor (Rows []); VTensor (Rows []); VTensor (Rows [])], ∅)].
Proof.
  apply (meta_observe_all_unlabeled (lab_strategy ["class-il"]) lab_inputs
           [-1; -1; -1] [VTensor (Rows lab_inputs)] ∅
           (lab_world_with lab_args)).
  - intros Hin. apply list_elem_of_singleton in Hin. discriminate.
  - reflexivity.
  - repeat constructor; intros x Hx; discriminate.
  - repeat constructor.
Defined.

(** A strategy that does not override [observe] cannot complete a
    [meta_observe]: whatever the arguments, the call raises. *)
Theorem meta_observe_needs_observe `{Collaborators}
    (strategy : Strategy) (posargs : list pyval)
    (kwargs : gmap string pyval) (w : World) :
  observe strategy = ContinualModel_observe →
  ∃ e, (meta_observe strategy posargs kwargs w).1 = Raise e.
Proof.
  intros Hobs.
  destruct (meta_observe strategy posargs kwargs w).1 as [ret|e] eqn:Hr;
    [|by eexists].
  destruct (meta_observe_inherited_raises strategy posargs kwargs w Hobs).
  by exists ret.
Qed.

Lemma meta_observe_needs_observe_witness :
  ∃ e,
    (meta_observe (inherit_all (collab := lab) "sgd" ["class-il"]) lab_batch
       ∅ (lab_world_with lab_args)).1 = Raise e.
Proof.
  apply (meta_observe_needs_observe
           (inherit_all (collab := lab) "sgd" ["class-il"])).
  reflexivity.
Defined.

(** ** More on construction *)

Section ConstructionSteps.

Context {collab : Collaborators} (strategy : Strategy).

(** Lines 47-53 always return: either with both transforms derived and
    nothing printed, or with both [None] and the warning printed. *)
Lemma init_kornia_inv (w w' : World) (r : result unit) :
  init_kornia w = (r, w') →
  r = Ok tt ∧ strat w' = strat w ∧
  ((∃ a b, self w' = set_normalization_transform (Some b)
                       (set_weak_transform (Some a) (self w)) ∧
           trace w' = trace w) ∨
   (self w' = set_normalization_transform None
                (set_weak_transform None (self w)) ∧
    trace w' = trace w ++ [Print kornia_warning])).
Proof.
  destruct (derive_kornia w) as [[[]|e] w1] eqn:Hd.
  - unfold init_kornia, try_except. rewrite Hd. intros ?; simplify_eq.
    revert Hd.
    unfold derive_kornia, mbind, M_bind, lift, get_self, modify_self.
    cbn [self strat trace].
    destruct (last_stage_transforms (transform (self w))) as [stages|?];
      [|done].
    destruct (to_kornia_transform (OfStages stages)) as [a|?]; [|done].
    destruct (Dataset.get_normalization_transform (dataset (self w)))
      as [nt|?]; [|by destruct (self w)].
    destruct (to_kornia_transform (OfTransform nt)) as [b|?];
      [|by destruct (self w)].
    intros ?; simplify_eq. split_and!; [done..|]. left. exists a, b.
    cbn [self trace]. by destruct (self w).
  - rewrite (init_kornia_recovers w w1 e Hd). intros ?; simplify_eq.
    split_and!; [done..|]. by right.
Qed.

(** Lines 55-59. *)
Lemma init_optimizer_inv (w w' : World) :
  init_optimizer w = (Ok tt, w') →
  strat w' = strat w ∧
  ((∃ b o, net (self w) = Some b ∧ (get_optimizer w).1 = Ok o ∧
           self w' = set_opt (Some o) (self w) ∧ trace w' = trace w) ∨
   (net (self w) = None ∧ self w' = set_opt None (self w) ∧
    trace w' = trace w ++ [Print no_backbone_warning])).
Proof.
  unfold init_optimizer. unfold mbind at 1. unfold M_bind at 1.
  cbn [get_self]. destruct (net (self w)) as [b|] eqn:Hnet.
  - unfold mbind, M_bind. pose proof (get_optimizer_state w) as Hs.
    destruct (get_optimizer w) as [[o|e] w1] eqn:Hopt; [|done].
    cbn in Hs. subst w1. unfold modify_self. intros ?; simplify_eq.
    split; [done|]. left. by exists b, o.
  - unfold mbind, M_bind, print, emit, modify_self. cbn [self strat trace].
    intros ?; simplify_eq. split; [done|]. by right.
Qed.

(** Line 60. *)
Lemma init_device_inv (w w' : World) :
  init_device w = (Ok tt, w') →
  ∃ d, get_device = Ok d ∧ self w' = set_device (Some d) (self w) ∧
       strat w' = strat w ∧ trace w' = trace w.
Proof.
  unfold init_device, mbind, M_bind, lift, modify_self.
  destruct get_device as [d|e]; [|done].
  intros ?; simplify_eq. by exists d.
Qed.

(** Lines 62-66. *)
Lemma init_checks_inv (w w' : World) :
  init_checks strategy w = (Ok tt, w') →
  NAME strategy ≠ "" ∧ COMPATIBILITY strategy ≠ [] ∧
  self w' = self w ∧ strat w' = strat w ∧
  ((PrimFloat.eqb (label_perc (args (self w))) 1 = false ∧
    ("cssl" ∉ COMPATIBILITY strategy) ∧
    trace w' = trace w ++ [Print label_perc_warning]) ∨
   ((PrimFloat.eqb (label_perc (args (self w))) 1 = true ∨
     "cssl" ∈ COMPATIBILITY strategy) ∧
    trace w' = trace w)).
Proof.
  unfold init_checks, mbind, M_bind, get_self, raise, print, emit, mret,
    M_ret, str_falsy, supports_cssl.
  case_bool_decide as Hname; [done|].
  destruct (COMPATIBILITY strategy) as [|c cs] eqn:Hcompat; [done|].
  cbn [list_falsy orb].
  destruct (PrimFloat.eqb (label_perc (args (self w))) 1) eqn:Hlp;
    cbn [negb andb].
  - intros ?; simplify_eq. split_and!; [done..|]. right. by split; [left|].
  - case_bool_decide as Hcssl; cbn [negb]; intros ?; simplify_eq;
      (split_and!; [done..|]).
    + right. by split; [right|].
    + by left.
Qed.

(** A completed construction went through the five steps in order. *)
Lemma init_Ok_steps backbone loss0 args0 transform0 st tr (w : World)
    (tr' : list event) :
  __init__ strategy backbone loss0 args0 transform0 st tr = (Ok w, tr') →
  ∃ ds w1 w2 w3,
    get_dataset args0 = Ok ds ∧
    init_kornia
      (mkWorld (init_fields backbone loss0 args0 transform0 ds) st tr)
    = (Ok tt, w1) ∧
    init_optimizer w1 = (Ok tt, w2) ∧
    init_device w2 = (Ok tt, w3) ∧
    init_checks strategy w3 = (Ok tt, w) ∧
    tr' = trace w.
Proof.
  unfold __init__. destruct (get_dataset args0) as [ds|e]; [|done].
  unfold mbind, M_bind.
  destruct (init_kornia _) as [[[]|?] w1] eqn:Hk; [|done].
  destruct (init_optimizer w1) as [[[]|?] w2] eqn:Ho; [|done].
  destruct (init_device w2) as [[[]|?] w3] eqn:Hd; [|done].
  destruct (init_checks strategy w3) as [[[]|?] w4] eqn:Hc; [|done].
  intros ?; simplify_eq. by exists ds, w1, w2, w3.
Qed.

End ConstructionSteps.

Section ConstructionOutcome.

Context {collab : Collaborators} (strategy : Strategy).

(** When [get_optimizer] returns, the constructor registered under the
    matching name has returned. *)
Lemma get_optimizer_Ok_inv (w : World) (o : Optimizer) :
  (get_optimizer w).1 = Ok o →
  ∃ b name,
    net (self w) = Some b ∧
    supported_optims !! lower (optimizer (args (self w))) = Some name ∧
    optim_call name (parameters b) (lr (args (self w)))
      (optim_wd (args (self w))) (optim_mom (args (self w))) = Ok o.
Proof.
  unfold get_optimizer, mbind, M_bind, get_self, lift, raise, mret, M_ret.
  destruct (supported_optims !! lower (optimizer (args (self w))))
    as [name|]; [|done].
  destruct (net (self w)) as [b|]; [|done].
  cbn. intros Ho. by exists b, name.
Qed.

Lemma get_optimizer_Ok_intro (w : World) (b : Backbone) (name : string)
    (o : Optimizer) :
  net (self w) = Some b →
  supported_optims !! lower (optimizer (args (self w))) = Some name →
  optim_call name (parameters b) (lr (args (self w)))
    (optim_wd (args (self w))) (optim_mom (args (self w))) = Ok o →
  get_optimizer w = (Ok o, w).
Proof.
  intros Hn Hs Ho.
  unfold get_optimizer, mbind, M_bind, get_self, lift, raise, mret, M_ret.
  by rewrite Hs, Hn, Ho.
Qed.

(** The attributes that the later steps read are those of the arguments. *)
Lemma init_kornia_keeps (w w' : World) (r : result unit) :
  init_kornia w = (r, w') →
  net (self w') = net (self w) ∧ args (self w') = args (self w) ∧
  current_task (self w') = current_task (self w) ∧
  cpt (self w') = cpt (self w) ∧ N_CLASSES (self w') = N_CLASSES (self w) ∧
  N_TASKS (self w') = N_TASKS (self w) ∧
  opt (self w') = opt (self w) ∧ device (self w') = device (self w) ∧
  buffer (self w') = buffer (self w) ∧
  n_classes_current_task (self w') = n_classes_current_task (self w) ∧
  n_seen_classes (self w') = n_seen_classes (self w) ∧
  n_remaining_classes (self w') = n_remaining_classes (self w) ∧
  n_past_classes (self w') = n_past_classes (self w).
Proof.
  intros Hk. destruct (init_kornia_inv w w' r Hk)
    as (_ & _ & [(a & b & -> & _)|[-> _]]); by destruct (self w).
Qed.

End ConstructionOutcome.

(** Construction completes exactly when the dataset lookup and the device
    lookup return, the strategy has a name and a compatibility tag, and,
    if a backbone is supplied, the requested optimizer is found and its
    constructor returns.  Without a backbone the requested optimizer is
    not looked at. *)
Theorem init_completes_iff `{Collaborators}
    (strategy : Strategy) (backbone : option Backbone) (loss0 : Loss)
    (args0 : Namespace) (transform0 : Transform) (st : StrategyState)
    (tr : list event) :
  is_Ok (__init__ strategy backbone loss0 args0 transform0 st tr).1 ↔
  is_Ok (get_dataset args0) ∧ is_Ok get_device ∧
  NAME strategy ≠ "" ∧ COMPATIBILITY strategy ≠ [] ∧
  (∀ b, backbone = Some b →
        ∃ name o,
          supported_optims !! lower (optimizer args0) = Some name ∧
          optim_call name (parameters b) (lr args0) (optim_wd args0)
            (optim_mom args0) = Ok o).
Proof.
  split.
  - intros [w Hw].
    destruct (__init__ strategy backbone loss0 args0 transform0 st tr)
      as [r tr'] eqn:Hinit. cbn in Hw. subst r.
    destruct (init_Ok_steps strategy _ _ _ _ _ _ _ _ Hinit)
      as (ds & w1 & w2 & w3 & Hds & Hk & Ho & Hd & Hc & _).
    destruct (init_kornia_keeps _ _ _ Hk) as (Hnet & Hargs & _).
    destruct (init_optimizer_inv _ _ Ho) as (_ & Hopt).
    destruct (init_device_inv _ _ Hd) as (d & Hdev & _).
    destruct (init_checks_inv strategy _ _ Hc) as (Hname & Hcompat & _).
    split_and!; [by eexists|by eexists|done..|].
    intros b ->. cbn in Hnet.
    destruct Hopt as [(b' & o & Hb & Hget & _)|[Hnone _]];
      [|by rewrite Hnet in Hnone].
    destruct (get_optimizer_Ok_inv _ _ Hget) as (b'' & name & Hb'' & Hs & Hcall).
    rewrite Hnet in Hb''. injection Hb'' as <-.
    rewrite Hargs in Hs, Hcall. by exists name, o.
  - intros ([ds Hds] & [d Hd] & Hname & Hcompat & Hopt).
    unfold __init__. rewrite Hds. unfold mbind at 1. unfold M_bind at 1.
    destruct (init_kornia _) as [r w1] eqn:Hk.
    destruct (init_kornia_inv _ _ _ Hk) as (-> & _).
    destruct (init_kornia_keeps _ _ _ Hk) as (Hnet & Hargs & _).
    cbn in Hnet, Hargs.
    assert (∃ w2, init_optimizer w1 = (Ok tt, w2)) as [w2 Ho].
    { unfold init_optimizer. unfold mbind at 1. unfold M_bind at 1.
      cbn [get_self]. rewrite Hnet. destruct backbone as [b|].
      - destruct (Hopt b eq_refl) as (name & o & Hs & Hcall).
        unfold mbind, M_bind.
        rewrite (get_optimizer_Ok_intro w1 b name o);
          [by eexists|done|by rewrite Hargs..].
      - by eexists. }
    unfold mbind at 1. unfold M_bind at 1. rewrite Ho.
    unfold init_device, mbind, M_bind, lift, modify_self. rewrite Hd.
    unfold init_checks, get_self, raise, print, emit, mret, M_ret,
      str_falsy.
    rewrite bool_decide_eq_false_2 by done.
    destruct (COMPATIBILITY strategy); [done|]. cbn [list_falsy orb].
    unfold mbind, M_bind. cbn [self strat trace].
    by destruct (negb (PrimFloat.eqb _ 1) && negb (supports_cssl strategy));
      eexists.
Qed.

(** On a controller that has been constructed, the two kornia transforms
    have both been assigned: either both hold a transform and the
    constructor has not printed its warning about them, or both are [None]
    and it has. *)
Theorem init_kornia_both_or_neither `{Collaborators}
    (strategy : Strategy) (backbone : option Backbone) (loss0 : Loss)
    (args0 : Namespace) (transform0 : Transform) (st : StrategyState)
    (tr tr' : list event) (w : World) :
  __init__ strategy backbone loss0 args0 transform0 st tr = (Ok w, tr') →
  ∃ printed,
    tr' = tr ++ printed ∧
    ((∃ a b, weak_transform (self w) = Assigned (Some a) ∧
             normalization_transform (self w) = Assigned (Some b) ∧
             (Print kornia_warning ∉ printed)) ∨
     (weak_transform (self w) = Assigned None ∧
      normalization_transform (self w) = Assigned None ∧
      Print kornia_warning ∈ printed)).
Proof.
  intros Hinit.
  destruct (init_Ok_steps strategy _ _ _ _ _ _ _ _ Hinit)
    as (ds & w1 & w2 & w3 & Hds & Hk & Ho & Hd & Hc & ->).
  destruct (init_kornia_inv _ _ _ Hk) as (_ & _ & Hkor).
  destruct (init_optimizer_inv _ _ Ho) as (_ & Hopt).
  destruct (init_device_inv _ _ Hd) as (d & _ & Hs3 & _ & Ht3).
  destruct (init_checks_inv strategy _ _ Hc) as (_ & _ & Hs4 & _ & Hlab).
  assert (weak_transform (self w) = weak_transform (self w1) ∧
          normalization_transform (self w)
          = normalization_transform (self w1)) as [-> ->].
  { rewrite Hs4, Hs3.
    destruct Hopt as [(? & ? & _ & _ & -> & _)|(_ & -> & _)];
      by destruct (self w1). }
  assert (∃ p2, trace w = trace w1 ++ p2 ∧ Print kornia_warning ∉ p2)
    as (p2 & Htr & Hp2).
  { destruct Hopt as [(? & ? & _ & _ & _ & Ht2)|(_ & _ & Ht2)];
      destruct Hlab as [(_ & _ & Ht4)|(_ & Ht4)];
      rewrite Ht4, Ht3, Ht2, <- ?app_assoc.
    - exists [Print label_perc_warning]. split; [done|].
      by intros ?%list_elem_of_singleton.
    - exists []. split; [by rewrite app_nil_r|]. apply not_elem_of_nil.
    - exists [Print no_backbone_warning; Print label_perc_warning].
      split; [done|].
      rewrite !elem_of_cons, elem_of_nil. by intros [?|[?|?]].
    - exists [Print no_backbone_warning]. split; [done|].
      by intros ?%list_elem_of_singleton. }
  destruct Hkor as [(a & b & Hs1 & Ht1)|[Hs1 Ht1]]; rewrite Hs1.
  - cbn [self trace] in *. exists p2. split; [by rewrite Htr, Ht1|].
    left. exists a, b. by destruct (init_fields _ _ _ _ _).
  - cbn [self trace] in *. exists ([Print kornia_warning] ++ p2).
    split; [by rewrite Htr, Ht1, <- app_assoc|].
    right. split_and!; [by destruct (init_fields _ _ _ _ _)..|].
    apply elem_of_app. left. by apply list_elem_of_singleton.
Qed.

Lemma init_kornia_both_or_neither_witness :
  ∃ w tr' printed,
    __init__ (lab_strategy ["class-il"]) (Some tt) tt lab_args
      (Stage "ToTensor") 0%nat [] = (Ok w, tr') ∧
    tr' = [] ++ printed ∧
    ((∃ a b, weak_transform (self w) = Assigned (Some a) ∧
             normalization_transform (self w) = Assigned (Some b) ∧
             (Print kornia_warning ∉ printed)) ∨
     (weak_transform (self w) = Assigned None ∧
      normalization_transform (self w) = Assigned None ∧
      Print kornia_warning ∈ printed)).
Proof.
  eexists _, _.
  assert (∀ (P : Prop) (Q : list event → Prop),
            P → (∃ x, Q x) → ∃ x, P ∧ Q x) as Hsplit.
  { intros P Q HP [x HQ]. by exists x. }
  apply Hsplit; [vm_compute; reflexivity|].
  refine (init_kornia_both_or_neither (lab_strategy ["class-il"])
            (Some tt) tt lab_args (Stage "ToTensor") 0%nat [] _ _ _).
  vm_compute. reflexivity.
Defined.

(** A controller that has just been constructed is on task 0, holds the
    class and task counts of the dataset found for its arguments, has no
    buffer and none of the four progress attributes, has a device, and
    has its optimizer attribute assigned, with an optimizer exactly when
    it has a backbone and [None] otherwise; the strategy's own state is
    untouched. *)
Theorem init_fresh_controller `{Collaborators}
    (strategy : Strategy) (backbone : option Backbone) (loss0 : Loss)
    (args0 : Namespace) (transform0 : Transform) (st : StrategyState)
    (tr tr' : list event) (w : World) :
  __init__ strategy backbone loss0 args0 transform0 st tr = (Ok w, tr') →
  ∃ ds,
    get_dataset args0 = Ok ds ∧
    N_CLASSES (self w) = Dataset.N_CLASSES ds ∧
    N_TASKS (self w) = Dataset.N_TASKS ds ∧
    cpt (self w) = Dataset.N_CLASSES_PER_TASK ds ∧
    args (self w) = args0 ∧ net (self w) = backbone ∧
    current_task (self w) = 0 ∧
    buffer (self w) = None ∧
    n_classes_current_task (self w) = None ∧
    n_seen_classes (self w) = None ∧
    n_remaining_classes (self w) = None ∧
    n_past_classes (self w) = None ∧
    is_Some (device (self w)) ∧
    (∃ o, opt (self w) = Assigned o ∧ (o = None ↔ backbone = None)) ∧
    strat w = st.
Proof.
  intros Hinit.
  destruct (init_Ok_steps strategy _ _ _ _ _ _ _ _ Hinit)
    as (ds & w1 & w2 & w3 & Hds & Hk & Ho & Hd & Hc & _).
  destruct (init_kornia_inv _ _ _ Hk) as (_ & Hst1 & _).
  destruct (init_kornia_keeps _ _ _ Hk)
    as (Hnet & Hargs & Hct & Hcpt & HNC & HNT & Hopt1 & Hdev1 & Hbuf
        & Hn1 & Hn2 & Hn3 & Hn4).
  destruct (init_optimizer_inv _ _ Ho) as (Hst2 & Hopt).
  destruct (init_device_inv _ _ Hd) as (d & _ & Hs3 & Hst3 & _).
  destruct (init_checks_inv strategy _ _ Hc) as (_ & _ & Hs4 & Hst4 & _).
  exists ds. split; [done|]. rewrite Hs4, Hs3, Hst4, Hst3, Hst2, Hst1.
  cbn in *.
  destruct Hopt as [(b & o & Hb & _ & -> & _)|(Hb & -> & _)];
    rewrite Hnet in Hb; subst backbone;
    destruct (self w1); cbn in *; simplify_eq;
    split_and!; try done; by eexists.
Qed.

Lemma init_fresh_controller_witness :
  ∃ w tr',
    __init__ (lab_strategy ["class-il"]) None tt lab_args lab_pipeline
      0%nat [] = (Ok w, tr') ∧
    current_task (self w) = 0 ∧ opt (self w) = Assigned None ∧
    n_seen_classes (self w) = None.
Proof.
  eexists _, _. split; [vm_compute; reflexivity|].
  edestruct (init_fresh_controller (lab_strategy ["class-il"]) None tt
               lab_args lab_pipeline 0%nat [])
    as (ds & _ & _ & _ & _ & _ & _ & Hct & _ & _ & Hseen & _ & _ & _ & Hopt & _);
    [vm_compute; reflexivity|].
  destruct Hopt as (o & Ho & Hnone).
  split_and!; [exact Hct | by rewrite Ho, (proj2 Hnone) | exact Hseen].
Defined.

(** A completed construction has printed the warning about [label_perc]
    exactly when [label_perc] is not 1 and the strategy does not declare
    [cssl]; the warning never stops construction. *)
Theorem init_label_perc_warning `{Collaborators}
    (strategy : Strategy) (backbone : option Backbone) (loss0 : Loss)
    (args0 : Namespace) (transform0 : Transform) (st : StrategyState)
    (tr tr' : list event) (w : World) :
  __init__ strategy backbone loss0 args0 transform0 st tr = (Ok w, tr') →
  ∃ printed,
    tr' = tr ++ printed ∧
    (Print label_perc_warning ∈ printed ↔
     PrimFloat.eqb (label_perc args0) 1 = false ∧
     "cssl" ∉ COMPATIBILITY strategy).
Proof.
  intros Hinit.
  destruct (init_Ok_steps strategy _ _ _ _ _ _ _ _ Hinit)
    as (ds & w1 & w2 & w3 & Hds & Hk & Ho & Hd & Hc & ->).
  destruct (init_kornia_inv _ _ _ Hk) as (_ & _ & Hkor).
  destruct (init_kornia_keeps _ _ _ Hk) as (_ & Hargs & _).
  destruct (init_optimizer_inv _ _ Ho) as (_ & Hopt).
  destruct (init_device_inv _ _ Hd) as (d & _ & Hs3 & _ & Ht3).
  destruct (init_checks_inv strategy _ _ Hc) as (_ & _ & _ & _ & Hlab).
  assert (args (self w3) = args0) as Ha3.
  { rewrite Hs3.
    destruct Hopt as [(? & ? & _ & _ & -> & _)|(_ & -> & _)];
      cbn in Hargs; rewrite <- Hargs; by destruct (self w1). }
  rewrite Ha3 in Hlab.
  assert (∃ p, trace w3 = tr ++ p ∧ Print label_perc_warning ∉ p)
    as (p & Htr3 & Hp).
  { rewrite Ht3.
    destruct Hkor as [(? & ? & _ & Ht1)|[_ Ht1]];
      destruct Hopt as [(? & ? & _ & _ & _ & Ht2)|(_ & _ & Ht2)];
      rewrite Ht2, Ht1, <- ?app_assoc; cbn [trace].
    - exists []. split; [by rewrite app_nil_r|]. apply not_elem_of_nil.
    - exists [Print no_backbone_warning]. split; [done|].
      by intros ?%list_elem_of_singleton.
    - exists [Print kornia_warning]. split; [done|].
      by intros ?%list_elem_of_singleton.
    - exists [Print kornia_warning; Print no_backbone_warning].
      split; [done|].
      rewrite !elem_of_cons, elem_of_nil. by intros [?|[?|?]]. }
  destruct Hlab as [(Hlp & Hcssl & Ht4)|(Hoff & Ht4)]; rewrite Ht4, Htr3.
  - exists (p ++ [Print label_perc_warning]).
    split; [by rewrite app_assoc|]. split; [done|]. intros _.
    apply elem_of_app. right. by apply list_elem_of_singleton.
  - exists p. split; [done|]. split; [done|]. intros [Hlp Hcssl].
    destruct Hoff as [Hone|Hin]; [by rewrite Hone in Hlp|done].
Qed.

Lemma init_label_perc_warning_witness :
  ∃ w tr',
    __init__ (lab_strategy ["class-il"]) (Some tt) tt
      {| optimizer := "sgd"; lr := 0.125; optim_wd := 0; optim_mom := 0;
         buffer_size := 1000; nowand := false; debug_mode := false;
         label_perc := 0.25 |}
      lab_pipeline 0%nat [] = (Ok w, tr') ∧
    tr' = [Print label_perc_warning].
Proof.
  eexists _, _. split; [vm_compute; reflexivity|].
  edestruct (init_label_perc_warning (lab_strategy ["class-il"]) (Some tt) tt
               {| optimizer := "sgd"; lr := 0.125; optim_wd := 0;
                  optim_mom := 0; buffer_size := 1000; nowand := false;
                  debug_mode := false; label_perc := 0.25 |}
               lab_pipeline 0%nat [])
    as (printed & _ & _); [vm_compute; reflexivity|].
  reflexivity.
Defined.

(** ** More on optimizer selection *)

(** When several names of [dir(optim)] have the requested lower-case
    form, the constructor called is the one registered under the last of
    them. *)
Theorem get_optimizer_last_name_wins `{Collaborators} (w : World)
    (b : Backbone) (before after : list string) (name : string) :
  optim_dir = before ++ name :: after →
  lower name = lower (optimizer (args (self w))) →
  (∀ other, other ∈ after →
            lower other ≠ lower (optimizer (args (self w)))) →
  net (self w) = Some b →
  get_optimizer w
  = (optim_call name (parameters b) (lr (args (self w)))
       (optim_wd (args (self w))) (optim_mom (args (self w))), w).
Proof.
  intros Hdir Hname Hafter Hnet.
  assert (supported_optims !! lower (optimizer (args (self w))) = Some name)
    as Hs.
  { rewrite supported_optims_lookup, Hdir, filter_app, filter_cons.
    rewrite decide_True by done.
    assert (filter (λ n, lower n = lower (optimizer (args (self w)))) after
            = []) as ->.
    { apply elem_of_nil_inv. intros other Hin.
      apply list_elem_of_filter in Hin as [Heq Hin]. by apply (Hafter other). }
    apply last_snoc. }
  unfold get_optimizer, mbind, M_bind, get_self, lift, mret, M_ret.
  rewrite Hs, Hnet. cbn. by destruct (optim_call _ _ _ _ _).
Qed.

Lemma get_optimizer_last_name_wins_witness :
  get_optimizer (lab_torch_world "sgd")
  = (Raise TypeError, lab_torch_world "sgd") ∧
  get_optimizer (lab_torch_world "adam") = (Ok "Adam", lab_torch_world "adam").
Proof.
  split.
  - apply (get_optimizer_last_name_wins (lab_torch_world "sgd") tt
             ["Adam"; "SGD"; "lr_scheduler"] [] "sgd");
      [reflexivity | reflexivity | | reflexivity].
    intros other Hin. by apply elem_of_nil in Hin.
  - apply (get_optimizer_last_name_wins (lab_torch_world "adam") tt
             [] ["SGD"; "lr_scheduler"; "sgd"] "Adam");
      [reflexivity | reflexivity | | reflexivity].
    intros other Hin.
    rewrite !elem_of_cons, elem_of_nil in Hin.
    destruct Hin as [->|[->|[->|[]]]]; discriminate.
Defined.

(** Two requests that differ only in the case of the optimizer name are
    served alike when a name matches them: [get_optimizer] gives the same
    outcome for both. *)
Theorem get_optimizer_same_up_to_case `{Collaborators} (w1 w2 : World) :
  lower (optimizer (args (self w1))) = lower (optimizer (args (self w2))) →
  net (self w1) = net (self w2) →
  lr (args (self w1)) = lr (args (self w2)) →
  optim_wd (args (self w1)) = optim_wd (args (self w2)) →
  optim_mom (args (self w1)) = optim_mom (args (self w2)) →
  (∃ name, name ∈ optim_dir ∧
           lower name = lower (optimizer (args (self w1)))) →
  (get_optimizer w1).1 = (get_optimizer w2).1.
Proof.
  intros Hlow Hnet Hlr Hwd Hmom (n0 & Hin & Hn0).
  unfold get_optimizer, mbind, M_bind, get_self, lift, raise, mret, M_ret.
  rewrite <- Hlow, <- Hnet, <- Hlr, <- Hwd, <- Hmom.
  destruct (supported_optims !! lower (optimizer (args (self w1))))
    as [name|] eqn:Hs.
  - destruct (net (self w1)); [|done]. cbn.
    by destruct (optim_call _ _ _ _ _).
  - exfalso. by eapply supported_optims_None.
Qed.

Lemma get_optimizer_same_up_to_case_witness :
  (get_optimizer (lab_torch_world "ADAM")).1
  = (get_optimizer (lab_torch_world "adam")).1.
Proof.
  apply (get_optimizer_same_up_to_case (lab_torch_world "ADAM")
           (lab_torch_world "adam")); try reflexivity.
  exists "Adam". split; [|reflexivity]. apply elem_of_cons. by left.
Defined.

(** Without a backbone [get_optimizer] always raises, and it looks at the
    name first: [ValueError] for a name that [dir(optim)] does not list
    in any case, [AttributeError] for one that it lists.  In no case does
    it change the controller. *)
Theorem get_optimizer_without_backbone `{Collaborators} (w : World) :
  net (self w) = None →
  let requested := optimizer (args (self w)) in
  ((∀ name, name ∈ optim_dir → lower name ≠ lower requested) →
   get_optimizer w
   = (Raise (ValueError ("Unknown optimizer: " +:+ requested)), w)) ∧
  ((∃ name, name ∈ optim_dir ∧ lower name = lower requested) →
   get_optimizer w = (Raise AttributeError, w)).
Proof.
  intros Hnet. cbv zeta.
  unfold get_optimizer, mbind, M_bind, get_self, lift, raise, mret, M_ret.
  rewrite Hnet. split.
  - intros Hnone. apply supported_optims_None in Hnone. by rewrite Hnone.
  - intros (n0 & Hin & Hn0).
    destruct (supported_optims !! lower (optimizer (args (self w))))
      as [name|] eqn:Hs; [done|].
    exfalso. by eapply supported_optims_None.
Qed.

Lemma get_optimizer_without_backbone_witness :
  let w := mkWorld (init_fields (collab := lab) None tt lab_args
                      lab_pipeline ds_uneven) 0%nat [] in
  get_optimizer w = (Raise AttributeError, w).
Proof.
  apply (get_optimizer_without_backbone
           (mkWorld (init_fields (collab := lab) None tt lab_args
                       lab_pipeline ds_uneven) 0%nat []) eq_refl).
  exists "sgd". split; [by apply list_elem_of_singleton|reflexivity].
Defined.

(** ** Logging with extra entries *)

(** With [wandb] imported, [nowand] off and [debug_mode] off,
    [autolog_wandb] calls [wandb.log] once: an entry of [extra] is logged
    as it is and hides a local variable of the same name; any other name
    is logged only if it starts with [_wandb_] or [loss], a
    zero-dimensional tensor being replaced by its number.  With [nowand]
    or [debug_mode] on, nothing is logged and nothing changes.  With both
    off and [wandb] not imported, the name [wandb] is not bound and the
    call raises [NameError]. *)
Theorem autolog_wandb_extra `{Collaborators}
    (ls : gmap string pyval) (extra : option (gmap string pyval))
    (w : World) :
  let a := args (self w) in
  (wandb_imported = true → nowand a = false → debug_mode a = false →
   ∃ d, autolog_wandb ls extra w
        = (Ok tt, mkWorld (self w) (strat w) (trace w ++ [WandbLog d])) ∧
        ∀ k, d !! k
             = match default ∅ extra !! k with
               | Some v => Some v
               | None => if logged_name k
                         then item_if_scalar <$> ls !! k else None
               end) ∧
  (nowand a = true ∨ debug_mode a = true →
   autolog_wandb ls extra w = (Ok tt, w)) ∧
  (wandb_imported = false → nowand a = false → debug_mode a = false →
   autolog_wandb ls extra w = (Raise NameError, w)).
Proof.
  cbv zeta.
  unfold autolog_wandb, mbind, M_bind, get_self, emit, raise, mret, M_ret.
  split_and!.
  - intros Hw -> ->. rewrite Hw. cbn [negb andb]. eexists.
    split; [reflexivity|].
    intros k. rewrite lookup_union.
    destruct (default ∅ extra !! k) as [v|] eqn:He.
    + by destruct ((item_if_scalar <$> filter _ ls) !! k).
    + pose proof (logged_lookup ls k) as Hl. unfold logged in Hl.
      rewrite (left_id_L ∅ (∪)) in Hl. rewrite Hl.
      by destruct (logged_name k); [destruct (ls !! k)|].
  - intros [-> | ->]; [done|]. by rewrite andb_false_r.
  - intros Hw -> ->. by rewrite Hw.
Qed.

Lemma autolog_wandb_extra_witness :
  ∃ d,
    log_calls
      (trace (autolog_wandb
                {[ "loss" := VTensor (Item (NFloat 2.5));
                   "inputs" := VInt 7 ]}
                (Some {[ "loss" := VFloat 0.5; "epoch" := VInt 3 ]})
                (lab_world_with lab_args)).2) = [d] ∧
    d !! "loss" = Some (VFloat 0.5) ∧ d !! "epoch" = Some (VInt 3) ∧
    d !! "inputs" = None.
Proof.
  destruct (autolog_wandb_extra
              {[ "loss" := VTensor (Item (NFloat 2.5)); "inputs" := VInt 7 ]}
              (Some {[ "loss" := VFloat 0.5; "epoch" := VInt 3 ]})
              (lab_world_with lab_args)) as [Hon _].
  destruct (Hon eq_refl eq_refl eq_refl) as (d & Hrun & Hd).
  exists d. rewrite Hrun. split; [reflexivity|].
  rewrite !Hd. split_and!; vm_compute; reflexivity.
Defined.

Section BufferSteps.

Context {collab : Collaborators}.

(** A buffer of the right size is attached, and nothing else changes. *)
Lemma load_buffer_checks_size_lemma (b : Buffer) (w : World) (n : Z) :
  shape0 (examples b) = Ok n → n = buffer_size (args (self w)) →
  load_buffer b w
  = (Ok tt, mkWorld (set_buffer (Some b) (self w)) (strat w) (trace w)) ∧
  buffer (set_buffer (Some b) (self w)) = Some b ∧
  args (set_buffer (Some b) (self w)) = args (self w).
Proof.
  intros Hn ->. unfold load_buffer, mbind, M_bind, lift, get_self, modify_self.
  rewrite Hn, Z.eqb_refl. by destruct (self w).
Qed.

End BufferSteps.

(** ** Attaching buffers one after the other *)

(** A later [load_buffer] of the right size replaces the buffer attached
    before; one of the wrong size, or one whose examples have no first
    dimension, raises and keeps the buffer attached before. *)
Theorem load_buffer_twice `{Collaborators} (b1 b2 : Buffer) (w : World) :
  let w1 := (load_buffer b1 w).2 in
  let w2 := (load_buffer b2 w1).2 in
  shape0 (examples b1) = Ok (buffer_size (args (self w))) →
  (shape0 (examples b2) = Ok (buffer_size (args (self w))) →
   buffer (self w2) = Some b2) ∧
  (shape0 (examples b2) ≠ Ok (buffer_size (args (self w))) →
   buffer (self w2) = Some b1 ∧ ¬ is_Ok (load_buffer b2 w1).1).
Proof.
  cbv zeta. intros H1.
  destruct (load_buffer_checks_size_lemma b1 w _ H1 eq_refl)
    as (Hrun1 & Hb1 & Ha1).
  rewrite Hrun1. cbn [snd]. split.
  - intros H2. rewrite <- Ha1 in H2.
    destruct (load_buffer_checks_size_lemma b2
                (mkWorld (set_buffer (Some b1) (self w)) (strat w) (trace w))
                _ H2 eq_refl) as (-> & Hb2 & _).
    exact Hb2.
  - intros H2. unfold load_buffer, mbind, M_bind, lift, get_self, raise.
    cbn [self strat trace]. rewrite Ha1.
    destruct (shape0 (examples b2)) as [n|e]; [|by split; [|intros [? ?]]].
    destruct (Z.eqb_spec n (buffer_size (args (self w)))) as [->|Hne];
      [done|]. by split; [|intros [? ?]].
Qed.

Lemma load_buffer_twice_witness :
  buffer (self (load_buffer (replay 500)
                  (load_buffer (replay 1000) lab_world).2).2)
  = Some (replay 1000).
Proof.
  destruct (load_buffer_twice (replay 1000) (replay 500) lab_world eq_refl)
    as [_ Hkeep].
  apply Hkeep. discriminate.
Defined.

(** ** The filters of the documentation build *)

(** [has_items] is true exactly when [drop_torch_items] yields something;
    what [drop_torch_items] yields are the items that are keys of the
    object's dictionary, without [__init__], in the order given. *)
Theorem has_items_iff_drop_torch_items (fn_to_keep items : list string) :
  (has_items fn_to_keep items = true ↔ drop_torch_items fn_to_keep items ≠ []) ∧
  ("__init__" ∉ drop_torch_items fn_to_keep items) ∧
  (∀ item, item ∈ drop_torch_items fn_to_keep items →
           item ∈ items ∧ item ∈ fn_to_keep) ∧
  sublist (drop_torch_items fn_to_keep items) items.
Proof.
  unfold has_items, drop_torch_items. split_and!.
  - destruct (filter _ items) as [|x l]; cbn; [done|].
    by split.
  - intros Hin. by apply list_elem_of_filter in Hin as [[_ Hne] _].
  - intros item Hin. by apply list_elem_of_filter in Hin as [[Hk _] Hi].
  - apply sublist_filter.
Qed.

Section Sorting.

Context {A : Type} (key : A → string).

Lemma insert_by_Permutation (x : A) (l : list A) :
  insert_by key x l ≡ₚ x :: l.
Proof.
  induction l as [|y l IH]; [done|]. cbn.
  destruct (String.leb (key x) (key y)); [done|].
  rewrite IH. apply Permutation_swap.
Qed.

Lemma sorted_by_Permutation (l : list A) : sorted_by key l ≡ₚ l.
Proof.
  induction l as [|x l IH]; [done|]. cbn.
  by rewrite insert_by_Permutation, IH.
Qed.

Lemma insert_by_Sorted (x : A) (l : list A) :
  Sorted (key_le key) l → Sorted (key_le key) (insert_by key x l).
Proof.
  induction 1 as [|y l Hs IH Hhd]; cbn; [by repeat constructor|].
  destruct (String.leb (key x) (key y)) eqn:Hxy.
  - by repeat constructor.
  - constructor; [done|].
    assert (key_le key y x) as Hyx.
    { unfold key_le. by destruct (String.leb_total (key x) (key y)) as [?|?];
        [congruence|]. }
    destruct Hhd as [|z l Hyz]; cbn; [by constructor|].
    destruct (String.leb (key x) (key z)); by constructor.
Qed.

Lemma sorted_by_Sorted (l : list A) : Sorted (key_le key) (sorted_by key l).
Proof.
  induction l as [|x l IH]; [constructor|]. cbn. by apply insert_by_Sorted.
Qed.

(** Sorting a sorted list gives it back. *)
Lemma sorted_by_of_Sorted (l : list A) :
  Sorted (key_le key) l → sorted_by key l = l.
Proof.
  induction 1 as [|y l Hs IH Hhd]; [done|].
  change (sorted_by key (y :: l)) with (insert_by key y (sorted_by key l)).
  rewrite IH. destruct Hhd as [|z l Hyz]; [done|]. cbn. by rewrite Hyz.
Qed.

End Sorting.

Section Reorder.

Context (isdir : string → bool) (mammoth_path : string).

Lemma filter_all {A} (P : A → Prop) `{∀ x, Decision (P x)} (l : list A) :
  Forall P l → filter P l = l.
Proof.
  induction 1 as [|x l Hx _ IH]; [done|].
  by rewrite filter_cons, decide_True, IH.
Qed.

Lemma filter_none {A} (P : A → Prop) `{∀ x, Decision (P x)} (l : list A) :
  Forall (λ x, ¬ P x) l → filter P l = [].
Proof.
  induction 1 as [|x l Hx _ IH]; [done|].
  by rewrite filter_cons, decide_False, IH.
Qed.

(** The two groups of [reorder_modules]. *)
Lemma reorder_modules_groups (modules : list string) :
  let dir := λ m, _is_dir isdir mammoth_path m = true in
  let mods := sorted_by last_component (filter dir modules) in
  let others :=
    sorted_by last_component (filter (λ m, ¬ dir m) modules) in
  reorder_modules isdir mammoth_path modules = mods ++ others ∧
  Forall dir mods ∧ Forall (λ m, ¬ dir m) others ∧
  Sorted (key_le last_component) mods ∧
  Sorted (key_le last_component) others.
Proof.
  cbv zeta. split_and!; [done| | |apply sorted_by_Sorted..].
  - rewrite sorted_by_Permutation. apply Forall_forall.
    intros m Hm. by apply list_elem_of_filter in Hm as [? _].
  - rewrite sorted_by_Permutation. apply Forall_forall.
    intros m Hm. by apply list_elem_of_filter in Hm as [? _].
Qed.

(** A list that already has the two groups, each in order, is kept. *)
Lemma reorder_modules_ordered (mods others : list string) :
  Forall (λ m, _is_dir isdir mammoth_path m = true) mods →
  Forall (λ m, _is_dir isdir mammoth_path m ≠ true) others →
  Sorted (key_le last_component) mods →
  Sorted (key_le last_component) others →
  reorder_modules isdir mammoth_path (mods ++ others) = mods ++ others.
Proof.
  intros Hm Ho Hsm Hso. unfold reorder_modules. rewrite !filter_app.
  rewrite (filter_all _ mods Hm), (filter_none _ others Ho).
  rewrite (filter_none (λ m, _is_dir isdir mammoth_path m ≠ true) mods),
    (filter_all (λ m, _is_dir isdir mammoth_path m ≠ true) others Ho).
  - rewrite app_nil_r. cbn [app].
    by rewrite !sorted_by_of_Sorted.
  - eapply Forall_impl; [exact Hm|]. intros m Hd Hn. by apply Hn.
Qed.

End Reorder.

(** [reorder_modules] rearranges its input without losing or repeating a
    module: the directories come first, the other modules after them, and
    each of the two groups is in the order of the last dotted component
    of the names. *)
Theorem reorder_modules_directories_first (isdir : string → bool)
    (mammoth_path : string) (modules : list string) :
  reorder_modules isdir mammoth_path modules ≡ₚ modules ∧
  ∃ mods others,
    reorder_modules isdir mammoth_path modules = mods ++ others ∧
    Forall (λ m, _is_dir isdir mammoth_path m = true) mods ∧
    Forall (λ m, _is_dir isdir mammoth_path m ≠ true) others ∧
    Sorted (key_le last_component) mods ∧
    Sorted (key_le last_component) others.
Proof.
  split.
  - unfold reorder_modules. rewrite !sorted_by_Permutation.
    apply (filter_app_complement
             (λ m, _is_dir isdir mammoth_path m = true)).
  - destruct (reorder_modules_groups isdir mammoth_path modules)
      as (Heq & Hm & Ho & Hsm & Hso).
    eexists _, _. split_and!; [exact Heq|exact Hm|exact Ho|done..].
Qed.

(** Reordering a list that [reorder_modules] has ordered changes
    nothing. *)
Theorem reorder_modules_idempotent (isdir : string → bool)
    (mammoth_path : string) (modules : list string) :
  reorder_modules isdir mammoth_path
    (reorder_modules isdir mammoth_path modules)
  = reorder_modules isdir mammoth_path modules.
Proof.
  destruct (reorder_modules_groups isdir mammoth_path modules)
    as (Heq & Hm & Ho & Hsm & Hso).
  cbv zeta in *. rewrite Heq.
  by apply reorder_modules_ordered.
Qed.

Section StringFacts.

Lemma length_app_string (a b : string) :
  String.length (a +:+ b) = (String.length a + String.length b)%nat.
Proof.
  induction a as [|c a IH]; [done|].
  change (S (String.length (a +:+ b))
          = S (String.length a + String.length b)).
  by rewrite IH.
Qed.

Lemma chars_app (a b : string) :
  list_ascii_of_string (a +:+ b)
  = list_ascii_of_string a ++ list_ascii_of_string b.
Proof.
  induction a as [|c a IH]; [done|].
  change (c :: list_ascii_of_string (a +:+ b)
          = c :: (list_ascii_of_string a ++ list_ascii_of_string b)).
  by rewrite IH.
Qed.

Lemma split_on_nonempty (sep : ascii) (s : string) : split_on sep s ≠ [].
Proof.
  induction s as [|c s IH]; [done|]. cbn.
  destruct (Ascii.eqb c sep); [done|]. by destruct (split_on sep s).
Qed.

(** No piece of a split holds the separator, and a piece holds only
    characters of the string. *)
Lemma split_on_pieces (sep : ascii) (s piece : string) :
  piece ∈ split_on sep s →
  (sep ∉ list_ascii_of_string piece) ∧
  ∀ c, c ∈ list_ascii_of_string piece → c ∈ list_ascii_of_string s.
Proof.
  revert piece. induction s as [|c s IH]; intros piece; cbn.
  - intros ->%list_elem_of_singleton. split; [apply not_elem_of_nil|done].
  - destruct (Ascii.eqb_spec c sep) as [->|Hne].
    + intros [->|Hin]%elem_of_cons.
      * split; [apply not_elem_of_nil|]. by intros ? ?%elem_of_nil.
      * destruct (IH piece Hin) as [Hs Hc]. split; [done|].
        intros c' Hc'. apply elem_of_cons. right. by apply Hc.
    + destruct (split_on sep s) as [|p ps] eqn:Hsp;
        [by destruct (split_on_nonempty sep s)|].
      intros [->|Hin]%elem_of_cons.
      * destruct (IH p ltac:(by left)) as [Hs Hc]. cbn. split.
        -- intros [?|?]%elem_of_cons; [congruence|done].
        -- intros c' [->|Hc']%elem_of_cons; apply elem_of_cons;
             [by left|right; by apply Hc].
      * destruct (IH piece ltac:(by right)) as [Hs Hc]. split; [done|].
        intros c' Hc'. apply elem_of_cons. right. by apply Hc.
Qed.

(** A string without the separator is its own single piece. *)
Lemma split_on_no_sep (sep : ascii) (s : string) :
  sep ∉ list_ascii_of_string s → split_on sep s = [s].
Proof.
  induction s as [|c s IH]; [done|]. cbn. intros Hn.
  destruct (Ascii.eqb_spec c sep) as [->|Hne].
  - destruct Hn. by left.
  - rewrite IH; [done|]. intros Hin. apply Hn. by right.
Qed.

(** Joining the pieces of a split with the separator gives the string
    back. *)
Lemma concat_split_on (sep : ascii) (s : string) :
  String.concat (String sep EmptyString) (split_on sep s) = s.
Proof.
  induction s as [|c s IH]; [done|]. cbn.
  destruct (Ascii.eqb_spec c sep) as [->|Hne].
  - destruct (split_on sep s) as [|p ps] eqn:Hsp;
      [by destruct (split_on_nonempty sep s)|].
    cbn in *. by rewrite IH.
  - destruct (split_on sep s) as [|p ps] eqn:Hsp;
      [by destruct (split_on_nonempty sep s)|].
    destruct ps as [|q qs]; cbn in *; by rewrite <- IH.
Qed.

Lemma last_in {A} (l : list A) (d : A) : l ≠ [] → List.last l d ∈ l.
Proof.
  induction l as [|x l IH]; [done|]. intros _.
  destruct l as [|y l]; [by left|]. right. by apply IH.
Qed.

Lemma last_component_chars (x : string) :
  ("."%char ∉ list_ascii_of_string (last_component x)) ∧
  ∀ c, c ∈ list_ascii_of_string (last_component x) →
       c ∈ list_ascii_of_string x.
Proof.
  apply split_on_pieces. apply last_in, split_on_nonempty.
Qed.

Lemma lower_ascii_idemp (c : ascii) :
  lower_ascii (lower_ascii c) = lower_ascii c.
Proof. destruct c as [[] [] [] [] [] [] [] []]; reflexivity. Qed.

Lemma lower_ascii_keeps (c d : ascii) :
  d = "."%char ∨ d = "_"%char → lower_ascii c = d → c = d.
Proof.
  intros [-> | ->]; destruct c as [[] [] [] [] [] [] [] []];
    vm_compute; congruence.
Qed.

Lemma upper_ascii_keeps (c d : ascii) :
  d = "."%char ∨ d = "_"%char → upper_ascii c = d → c = d.
Proof.
  intros [-> | ->]; destruct c as [[] [] [] [] [] [] [] []];
    vm_compute; congruence.
Qed.

Lemma lower_idemp (s : string) : lower (lower s) = lower s.
Proof.
  induction s as [|c s IH]; [done|]. cbn.
  by rewrite lower_ascii_idemp, IH.
Qed.

Lemma lower_length (s : string) : String.length (lower s) = String.length s.
Proof. induction s as [|c s IH]; [done|]. cbn. by rewrite IH. Qed.

Lemma lower_chars (s : string) (d : ascii) :
  d = "."%char ∨ d = "_"%char →
  d ∈ list_ascii_of_string (lower s) → d ∈ list_ascii_of_string s.
Proof.
  intros Hd. induction s as [|c s IH]; [done|]. cbn.
  intros [Heq|Hin]%elem_of_cons; apply elem_of_cons.
  - left. symmetry. by apply (lower_ascii_keeps c d Hd).
  - right. by apply IH.
Qed.

Lemma capitalize_length (s : string) :
  String.length (capitalize s) = String.length s.
Proof. destruct s as [|c s]; [done|]. cbn. by rewrite lower_length. Qed.

Lemma capitalize_chars (s : string) (d : ascii) :
  d = "."%char ∨ d = "_"%char →
  d ∈ list_ascii_of_string (capitalize s) → d ∈ list_ascii_of_string s.
Proof.
  intros Hd. destruct s as [|c s]; [done|]. cbn.
  intros [Heq|Hin]%elem_of_cons; apply elem_of_cons.
  - left. symmetry. by apply (upper_ascii_keeps c d Hd).
  - right. by apply (lower_chars s d Hd).
Qed.

End StringFacts.

Section Titles.

Lemma concat_length_fmap (f : string → string) (sep1 sep2 : string)
    (l : list string) :
  (∀ x, String.length (f x) = String.length x) →
  String.length sep1 = String.length sep2 →
  String.length (String.concat sep1 (f <$> l))
  = String.length (String.concat sep2 l).
Proof.
  intros Hf Hsep. induction l as [|x l IH]; [done|].
  destruct l as [|y l]; [by apply Hf|].
  change (String.length (f x +:+ sep1 +:+ String.concat sep1 (f <$> y :: l))
          = String.length (x +:+ sep2 +:+ String.concat sep2 (y :: l))).
  rewrite !length_app_string, Hf, Hsep. by rewrite IH.
Qed.

Lemma concat_chars (sep : string) (l : list string) (c : ascii) :
  c ∈ list_ascii_of_string (String.concat sep l) →
  c ∈ list_ascii_of_string sep ∨
  ∃ x, x ∈ l ∧ c ∈ list_ascii_of_string x.
Proof.
  induction l as [|x l IH]; [by intros ?%elem_of_nil|].
  destruct l as [|y l].
  - intros Hc. right. exists x. split; [by left|done].
  - change (String.concat sep (x :: y :: l))
      with (x +:+ sep +:+ String.concat sep (y :: l)).
    rewrite !chars_app, !elem_of_app. intros [Hc|[Hc|Hc]].
    + right. exists x. split; [by left|done].
    + by left.
    + destruct (IH Hc) as [?|(z & Hz & Hcz)]; [by left|].
      right. exists z. split; [by right|done].
Qed.

End Titles.

(** The name [parse_toctree_name] gives is the last dotted component of
    the item when the item is no directory.  For a directory it is a
    title of the same length as that component, in which every underscore
    has become a space; in no case does it hold a dot. *)
Theorem parse_toctree_name_title (isdir : string → bool)
    (mammoth_path item : string) :
  let title := parse_toctree_name isdir mammoth_path item in
  (_is_dir isdir mammoth_path item = false →
   title = last_component item) ∧
  (_is_dir isdir mammoth_path item = true →
   String.length title = String.length (last_component item) ∧
   "_"%char ∉ list_ascii_of_string title) ∧
  "."%char ∉ list_ascii_of_string title.
Proof.
  cbv zeta. unfold parse_toctree_name.
  destruct (last_component_chars item) as [Hdot _].
  assert (∀ d, d = "."%char ∨ d = "_"%char →
               d ∈ list_ascii_of_string
                     (String.concat " "
                        (capitalize <$> split_on "_" (last_component item))) →
               ∃ piece, piece ∈ split_on "_" (last_component item) ∧
                        d ∈ list_ascii_of_string piece) as Hchars.
  { intros d Hd Hin. apply concat_chars in Hin as [Hsp|(x & Hx & Hdx)].
    - cbn in Hsp. apply list_elem_of_singleton in Hsp.
      destruct Hd; congruence.
    - apply list_elem_of_fmap in Hx as (piece & -> & Hp).
      exists piece. split; [done|]. by apply capitalize_chars. }
  destruct (_is_dir isdir mammoth_path item); split_and!; try done.
  - intros _. split.
    + rewrite (concat_length_fmap capitalize " " "_");
        [|apply capitalize_length|done].
      by rewrite concat_split_on.
    + intros Hin. destruct (Hchars _ (or_intror eq_refl) Hin)
        as (piece & Hp & Hd).
      by destruct (split_on_pieces _ _ _ Hp) as [Hn _].
  - intros Hin. destruct (Hchars _ (or_introl eq_refl) Hin)
      as (piece & Hp & Hd).
    destruct (split_on_pieces _ _ _ Hp) as [_ Hsub]. by apply Hdot, Hsub.
Qed.

Lemma parse_toctree_name_title_witness :
  parse_toctree_name (λ p, String.eqb p "/repo/models/utils") "/repo"
    "models.utils" = "Utils" ∧
  parse_toctree_name (λ p, String.eqb p "/repo/models/utils") "/repo"
    "models.utils.continual_model" = "continual_model".
Proof.
  split; [reflexivity|].
  apply (parse_toctree_name_title (λ p, String.eqb p "/repo/models/utils")
           "/repo" "models.utils.continual_model").
  reflexivity.
Defined.

(** The name [get_item_name] gives holds no dot and no upper-case ASCII
    letter, and it is its own item name. *)
Theorem get_item_name_fixed_point (x : string) :
  ("."%char ∉ list_ascii_of_string (get_item_name x)) ∧
  lower (get_item_name x) = get_item_name x ∧
  get_item_name (get_item_name x) = get_item_name x.
Proof.
  unfold get_item_name.
  destruct (last_component_chars x) as [Hdot _].
  assert ("."%char ∉ list_ascii_of_string (lower (last_component x)))
    as Hlow.
  { intros Hin. by apply Hdot, (lower_chars _ _ (or_introl eq_refl)). }
  split_and!; [done|apply lower_idemp|].
  unfold last_component at 1. rewrite split_on_no_sep by done.
  cbn. apply lower_idemp.
Qed.
